(** * The PL/SQL domain of sphinxcontrib-plsql

    A shallow embedding of [sphinxcontrib/plsqldomain.py] and the
    properties of its signature parser, qualification context, symbol
    index, cross-reference resolver and typed-field renderer.

    Strings are Rocq [string]s whose characters stand for the code points
    below 256: a character of type [ascii] with code [n] is the Python
    character [chr(n)], so that code 233 is the letter e with an acute
    accent and code 160 the no-break space.  Python strings with code
    points from 256 on have no counterpart here.  On these code points the
    character classes are those of Python 3 for [str] patterns and [str]
    methods: [\w] takes the letters and digits of the Unicode database and
    the underscore, and [\s], [str.isspace] and [str.strip] share one
    whitespace class (TAB, LF, VT, FF, CR, FS, GS, RS, US, the space, the
    next-line control and the no-break space).  A string literal of this
    file with a letter outside ASCII would stand for the bytes of its
    UTF-8 encoding, not for the letter: such characters are written by
    their code, as [e_acute] and [nbsp] below. *)

From Stdlib Require Import Ascii String List Bool Arith Lia.
From stdpp Require Import gmap strings list fin_maps.
Import ListNotations.
Local Open Scope string_scope.
Set Warnings "-register-all".

(** ** Characters *)

Module Chars.

Definition code (c : ascii) : nat := nat_of_ascii c.

Definition between (lo hi : nat) (c : ascii) : bool :=
  (lo <=? code c)%nat && (code c <=? hi)%nat.

Definition is_upper (c : ascii) : bool := between 65 90 c.
Definition is_lower (c : ascii) : bool := between 97 122 c.
Definition is_digit (c : ascii) : bool := between 48 57 c.

(** The letters and digits above 127: the ordinal indicators, the
    superscript digits, the micro sign, the vulgar fractions and the
    accented letters, without the multiplication and the division sign. *)
Definition is_high_alnum (c : ascii) : bool :=
  (code c =? 170)%nat || between 178 179 c || (code c =? 181)%nat
  || between 185 186 c || between 188 190 c
  || between 192 214 c || between 216 246 c || between 248 255 c.

(** [\w] *)
Definition is_word (c : ascii) : bool :=
  is_upper c || is_lower c || is_digit c || (code c =? 95)%nat
  || is_high_alnum c.

(** [\s], and the class of [str.isspace] and [str.strip] *)
Definition is_space (c : ascii) : bool :=
  between 9 13 c || between 28 32 c
  || (code c =? 133)%nat || (code c =? 160)%nat.

(** How [re.IGNORECASE] compares a character with a literal of the
    pattern; the literals are all below 128, where folding a character
    means folding the letters A to Z. *)
Definition lower (c : ascii) : ascii :=
  if is_upper c then ascii_of_nat (code c + 32) else c.

Definition eqb_nocase (a b : ascii) : bool :=
  Ascii.eqb (lower a) (lower b).

Definition newline : ascii := ascii_of_nat 10.

End Chars.

(** ** A backtracking matcher for the regular expressions of the module

    The matcher follows the search order of Python's [re]: alternatives
    are tried left to right, greedy repetitions longest first, and the
    groups reported are those of the first path that reaches the end of the
    pattern.  Repetition is over single-character atoms, the only form the
    pattern of this module uses. *)

Module Re.

Inductive atom : Type :=
  | Word                      (* \w *)
  | WordOrDot                 (* [\w.] *)
  | Space                     (* \s *)
  | AnyChar                   (* .  (no DOTALL: anything but a newline) *)
  | Lit (c : ascii).          (* a literal, compared under IGNORECASE *)

Inductive re : Type :=
  | Eps
  | One (a : atom)
  | Star (a : atom)           (* a*  greedy *)
  | Plus (a : atom)           (* a+  greedy *)
  | Seq (r1 r2 : re)
  | Opt (r : re)              (* r?  greedy *)
  | Group (n : nat) (r : re)  (* the n-th capturing group, counted from 0 *)
  | Eos.                      (* $   (no MULTILINE) *)

Definition atom_matches (a : atom) (c : ascii) : bool :=
  match a with
  | Word => Chars.is_word c
  | WordOrDot => Chars.is_word c || Ascii.eqb c "."
  | Space => Chars.is_space c
  | AnyChar => negb (Ascii.eqb c Chars.newline)
  | Lit l => Chars.eqb_nocase l c
  end.

(** The groups matched so far; [None] is a group that did not take part. *)
Abbreviation groups := (list (option string)).

Definition set_group (n : nat) (v : string) (g : groups) : groups :=
  <[n := Some v]> g.

(** The text consumed between the input [s] and its suffix [rest]. *)
Definition consumed (s rest : string) : string :=
  substring 0 (String.length s - String.length rest) s.

Section Matcher.
Context {R : Type}.

(** Greedy [a*]: take as many characters as match, then give back one at
    a time until the continuation succeeds. *)
Fixpoint star (a : atom) (s : string) (k : string -> option R) : option R :=
  match s with
  | String c s' =>
      if atom_matches a c then
        match star a s' k with
        | Some r => Some r
        | None => k s
        end
      else k s
  | EmptyString => k s
  end.

Fixpoint run (r : re) (s : string) (g : groups)
    (k : string -> groups -> option R) : option R :=
  match r with
  | Eps => k s g
  | One a =>
      match s with
      | String c s' => if atom_matches a c then k s' g else None
      | EmptyString => None
      end
  | Star a => star a s (fun rest => k rest g)
  | Plus a =>
      match s with
      | String c s' =>
          if atom_matches a c then star a s' (fun rest => k rest g) else None
      | EmptyString => None
      end
  | Seq r1 r2 => run r1 s g (fun rest g' => run r2 rest g' k)
  | Opt r' =>
      match run r' s g k with
      | Some res => Some res
      | None => k s g
      end
  | Group n r' =>
      run r' s g (fun rest g' => k rest (set_group n (consumed s rest) g'))
  | Eos =>
      match s with
      | EmptyString => k s g
      | String c EmptyString =>
          if Ascii.eqb c Chars.newline then k s g else None
      | _ => None
      end
  end.
End Matcher.

(** [pattern.match(s)]: anchored at the start; the result is [m.groups()]
    for a pattern with [ngroups] groups. *)
Definition rmatch (ngroups : nat) (r : re) (s : string) : option groups :=
  run r s (replicate ngroups None) (fun _ g => Some g).

Fixpoint lits (s : string) : re :=
  match s with
  | EmptyString => Eps
  | String c s' => Seq (One (Lit c)) (lits s')
  end.

Fixpoint seqs (rs : list re) : re :=
  match rs with
  | [] => Eps
  | r :: rs' => Seq r (seqs rs')
  end.

Fixpoint group_ids (r : re) : list nat :=
  match r with
  | Seq r1 r2 => group_ids r1 ++ group_ids r2
  | Opt r' => group_ids r'
  | Group n r' => n :: group_ids r'
  | _ => []
  end.

(** Expressions that cannot match the empty string. *)
Fixpoint consuming (r : re) : bool :=
  match r with
  | One _ | Plus _ => true
  | Seq r1 r2 => consuming r1 || consuming r2
  | Group _ r' => consuming r'
  | _ => false
  end.

End Re.

(** ** The signature pattern

    The source pattern, line by line (compiled with VERBOSE, so the blanks
    and the comments of the pattern are not part of it, and IGNORECASE):

    - "^ ([\w.]*\.)?"               package name(s)
    - "(\$?\w+)  \s*"               method name
    - "(?: (?:\(( .* )\))?"         optional: arguments
    - "(?:\s* return \s* ( .* ))?"  return annotation
    - ")? $"                        and nothing more
    [^] is the anchoring of [match] itself. *)

Definition plsql_sig_re : Re.re :=
  Re.seqs
    [ Re.Opt (Re.Group 0 (Re.Seq (Re.Star Re.WordOrDot) (Re.One (Re.Lit "."))));
      Re.Group 1 (Re.Seq (Re.Opt (Re.One (Re.Lit "$"))) (Re.Plus Re.Word));
      Re.Star Re.Space;
      Re.Opt (Re.seqs
        [ Re.Opt (Re.seqs [ Re.One (Re.Lit "(");
                            Re.Group 2 (Re.Star Re.AnyChar);
                            Re.One (Re.Lit ")") ]);
          Re.Opt (Re.seqs [ Re.Star Re.Space;
                            Re.lits "return";
                            Re.Star Re.Space;
                            Re.Group 3 (Re.Star Re.AnyChar) ]) ]);
      Re.Eos ].

(** [plsql_sig_re.match(sig)] followed by [m.groups()]. *)
Definition sig_groups (sig : string)
    : option (option string * option string * option string * option string) :=
  match Re.rmatch 4 plsql_sig_re sig with
  | Some [p; n; a; r] => Some (p, n, a, r)
  | _ => None
  end.

(** ** Python string operations used by the module *)

Module Py.

(** [s.split(sep)] for a one-character separator: every occurrence
    splits, and the result always has at least one piece. *)
Fixpoint split (sep : ascii) (s : string) : list string :=
  match s with
  | EmptyString => [EmptyString]
  | String c s' =>
      if Ascii.eqb c sep then EmptyString :: split sep s'
      else match split sep s' with
           | piece :: pieces => String c piece :: pieces
           | [] => [String c EmptyString]
           end
  end.

(** [sep.join(pieces)] *)
Fixpoint join (sep : string) (pieces : list string) : string :=
  match pieces with
  | [] => EmptyString
  | [p] => p
  | p :: ps => p ++ sep ++ join sep ps
  end.

Fixpoint all_space (s : string) : bool :=
  match s with
  | EmptyString => true
  | String c s' => Chars.is_space c && all_space s'
  end.

(** [s.isspace()]: false on the empty string. *)
Definition isspace (s : string) : bool :=
  match s with
  | EmptyString => false
  | _ => all_space s
  end.

Fixpoint lstrip (s : string) : string :=
  match s with
  | EmptyString => EmptyString
  | String c s' => if Chars.is_space c then lstrip s' else s
  end.

Fixpoint rstrip (s : string) : string :=
  match s with
  | EmptyString => EmptyString
  | String c s' =>
      match rstrip s' with
      | EmptyString =>
          if Chars.is_space c then EmptyString else String c EmptyString
      | r => String c r
      end
  end.

(** [s.strip()] *)
Definition strip (s : string) : string := rstrip (lstrip s).

(** Truth value of a string, and of a value that may be [None]. *)
Definition nonempty (s : string) : bool :=
  match s with
  | EmptyString => false
  | _ => true
  end.

Definition truthy (o : option string) : bool :=
  match o with
  | Some s => nonempty s
  | None => false
  end.

(** [l[:-1]] and [l[-1]] *)
Definition init {A} (l : list A) : list A := removelast l.
Definition final (l : list string) : string := List.last l EmptyString.

Fixpoint has_char (c : ascii) (s : string) : bool :=
  match s with
  | EmptyString => false
  | String c' s' => Ascii.eqb c' c || has_char c s'
  end.

Definition starts_with_space (s : string) : bool :=
  match s with
  | EmptyString => false
  | String c _ => Chars.is_space c
  end.

Fixpoint ends_with_space (s : string) : bool :=
  match s with
  | EmptyString => false
  | String c EmptyString => Chars.is_space c
  | String _ s' => ends_with_space s'
  end.

End Py.

(** ** Exceptions *)

Inductive exn : Type :=
  | ValueError
  | KeyError (key : string)
  | TypeError.

Inductive result (A : Type) : Type :=
  | Ok (a : A)
  | Raise (e : exn).
Arguments Ok {A} a.
Arguments Raise {A} e.

(** ** The doctree nodes the module builds *)

Inductive node : Type :=
  | Text (s : string)
  | desc_annotation (rawsource text : string)
  | desc_name (rawsource text : string)
  | desc_parameterlist (children : list node)
  | desc_parameter (rawsource text : string)
  | desc_returns (rawsource text : string)
  | strong (rawsource text : string)
  | emphasis (rawsource text : string)
  | pending_xref (refdomain reftype reftarget : string) (children : list node)
  | paragraph (children : list node)
  | bullet_list (children : list node)
  | list_item (children : list node)
  | field_name (text : string)
  | field_body (children : list node)
  | field (children : list node).

(** [addnodes.desc_signature]: its children and the attributes the module
    sets. *)
Record desc_signature : Type := {
  sig_children : list node;
  sig_names : list string;
  sig_ids : list string;
  sig_first : bool
}.

(** [signode += child] *)
Definition add_child (signode : desc_signature) (child : node) : desc_signature :=
  {| sig_children := sig_children signode ++ [child];
     sig_names := sig_names signode;
     sig_ids := sig_ids signode;
     sig_first := sig_first signode |}.

(** ** Object kinds: the directive names of [PlSqlDomain.directives] *)

Inductive objtype : Type :=
  | package | procedure | function | library | type | table | trigger.

#[global] Instance objtype_eq_dec : EqDecision objtype.
Proof. solve_decision. Defined.

Definition objtype_name (t : objtype) : string :=
  match t with
  | package => "package"
  | procedure => "procedure"
  | function => "function"
  | library => "library"
  | type => "type"
  | table => "table"
  | trigger => "trigger"
  end.

(** ** Build environment *)

(** [env.temp_data], restricted to the two keys of the module:
    ['plsql:in_package'] and ['plsql:current_package']; [None] is a key
    that is absent. *)
Record temp_data : Type := {
  in_package : option bool;
  current_package : option string
}.

(** [env.temp_data.get('plsql:in_package')] as a truth value. *)
Definition inside_package (t : temp_data) : bool :=
  match in_package t with
  | Some b => b
  | None => false
  end.

(** The directive instance ([self]): its [objtype], [lineno], [names] and
    the entries of its [indexnode]. *)
Record directive : Type := {
  self_objtype : objtype;
  lineno : nat;
  names : list string;
  indexnode_entries : list (string * string * string * string)
}.

(** ** PlSqlObject *)

(** [get_signature_prefix]: the same in each of the six subclasses. *)
Definition get_signature_prefix (self : directive) (sig : string) : string :=
  objtype_name (self_objtype self) ++ " ".

(** [stack[-1] += param], where [stack[-1]] is the very node that was
    appended last to [signode]: the update goes to the last child. *)
Fixpoint add_to_last (children : list node) (param : node) : list node :=
  match children with
  | [] => []
  | [desc_parameterlist ps] => [desc_parameterlist (ps ++ [param])]
  | c :: rest => c :: add_to_last rest param
  end.

Definition add_parameter (signode : desc_signature) (param : node) : desc_signature :=
  {| sig_children := add_to_last (sig_children signode) param;
     sig_names := sig_names signode;
     sig_ids := sig_ids signode;
     sig_first := sig_first signode |}.

(** [not token or token == ',' or token.isspace()]: a token the loop of
    [handle_signature] passes over. *)
Definition blank (token : string) : bool :=
  negb (Py.nonempty token) || String.eqb token "," || Py.isspace token.

(** One turn of the loop over [arglist.split(',')]. *)
Definition arg_step (signode : desc_signature) (token : string) : desc_signature :=
  if blank token then signode
  else
    let token := Py.strip token in
    add_parameter signode (desc_parameter token token).

Definition handle_signature (self : directive) (temp : temp_data)
    (sig : string) (signode : desc_signature) : result (string * desc_signature) :=
  match sig_groups sig with
  | None => Raise ValueError
  | Some (name_prefix, name, arglist, retann) =>
      let name_prefix :=
        if Py.truthy name_prefix then default "" name_prefix else "" in
      let prefixed :=
        if inside_package temp then
          match current_package temp with
          | Some pkg => Ok (pkg ++ ".")
          | None => Raise (KeyError "plsql:current_package")
          end
        else Ok name_prefix in
      match prefixed with
      | Raise e => Raise e
      | Ok name_prefix =>
          let sig_prefix := get_signature_prefix self sig in
          let signode :=
            if Py.nonempty sig_prefix
            then add_child signode (desc_annotation sig_prefix sig_prefix)
            else signode in
          let signode :=
            if negb (inside_package temp)
            then add_child signode (desc_annotation name_prefix name_prefix)
            else signode in
          let fullname := "" in
          let fullname :=
            if Py.nonempty name_prefix then fullname ++ name_prefix else fullname in
          match name with
          | None => Raise TypeError
          | Some name =>
              let fullname := fullname ++ name in
              let signode := add_child signode (desc_name name name) in
              let signode :=
                if Py.truthy arglist then
                  let signode := add_child signode (desc_parameterlist []) in
                  fold_left arg_step (Py.split "," (default "" arglist)) signode
                else signode in
              let signode :=
                if Py.truthy retann
                then add_child signode
                       (desc_returns (default "" retann) (default "" retann))
                else signode in
              Ok (fullname, signode)
          end
      end
  end.

(** ** PlSqlPackage *)

Definition before_content (self : directive) (temp : temp_data) : temp_data :=
  let temp := {| in_package := Some true;
                 current_package := current_package temp |} in
  match names self with
  | first_name :: _ =>
      {| in_package := in_package temp; current_package := Some first_name |}
  | [] => temp
  end.

Definition after_content (self : directive) (temp : temp_data) : temp_data :=
  {| in_package := Some false; current_package := current_package temp |}.

(** ** The symbol index and its surroundings

    [objects] is [env.domaindata['plsql']['objects']]: fullname ->
    (docname, objtype).  [document_ids] holds the keys of
    [state.document.ids], [reported] the warnings handed to the reporter,
    oldest first. *)

Record warning : Type := {
  message : string;
  line : nat
}.

Record world : Type := {
  docname : string;
  objects : gmap string (string * objtype);
  document_ids : gset string;
  reported : list warning
}.

Definition set_objects (w : world) (inv : gmap string (string * objtype)) : world :=
  {| docname := docname w; objects := inv;
     document_ids := document_ids w; reported := reported w |}.

Definition set_document_ids (w : world) (ids : gset string) : world :=
  {| docname := docname w; objects := objects w;
     document_ids := ids; reported := reported w |}.

Definition report (w : world) (msg : warning) : world :=
  {| docname := docname w; objects := objects w;
     document_ids := document_ids w; reported := reported w ++ [msg] |}.

(** The host starts reading a document: [env.docname] is set and the
    document has its own, new table of ids. *)
Definition open_document (doc : string) (ids : gset string) (w : world) : world :=
  {| docname := doc; objects := objects w;
     document_ids := ids; reported := reported w |}.

(** docutils' [document.note_explicit_target(node)]: its [set_id] enters
    the last id of the node as a key of [document.ids].  (A node without
    ids would be given a generated one; the module always appends an id
    first.) *)
Definition note_explicit_target (signode : desc_signature) (w : world) : world :=
  match last (sig_ids signode) with
  | Some id => set_document_ids w ({[id]} ∪ document_ids w)
  | None => w
  end.

Definition get_index_text (self : directive) (name : string) : string :=
  name ++ " (PL/SQL " ++ objtype_name (self_objtype self) ++ ")".

Section Indexing.
(** [env.doc2path], a function of the host. *)
Variable doc2path : string -> string.

Definition duplicate_warning (self : directive) (name : string)
    (other : string * objtype) : warning :=
  {| message := ("duplicate object description of " ++ name ++ ", ")
                  ++ "other instance in " ++ doc2path (fst other);
     line := lineno self |}.

Definition add_target_and_index (self : directive) (name sig : string)
    (signode : desc_signature) (w : world)
    : directive * desc_signature * world :=
  let '(signode, w) :=
    if decide (name ∈ document_ids w) then (signode, w)
    else
      let signode :=
        {| sig_children := sig_children signode;
           sig_names := sig_names signode ++ [name];
           sig_ids := sig_ids signode ++ [name];
           sig_first := match names self with [] => true | _ => false end |} in
      let w := note_explicit_target signode w in
      let inv := objects w in
      let w :=
        match inv !! name with
        | Some other => report w (duplicate_warning self name other)
        | None => w
        end in
      (signode, set_objects w (<[name := (docname w, self_objtype self)]> inv)) in
  let indextext := get_index_text self name in
  let self :=
    if Py.nonempty indextext then
      {| self_objtype := self_objtype self;
         lineno := lineno self;
         names := names self;
         indexnode_entries :=
           indexnode_entries self ++ [("single", indextext, name, "")] |}
    else self in
  (self, signode, w).
End Indexing.

(** ** The host's passes over a document

    A document is read by running its directives in source order; each
    declaration that parsed reaches [add_target_and_index] with the name
    [handle_signature] returned.  Before a document is read again the host
    calls [clear_doc] for it. *)

Definition declaration : Type := directive * string * string * desc_signature.

(** ** PlSqlXRefRole *)

Definition process_link {Env Node : Type} (env : Env) (refnode : Node)
    (has_explicit_title : bool) (title target : string) : string * string :=
  (title, target).

(** ** PlSqlDomain *)

(** One turn of the loop of [clear_doc] over a snapshot of the items. *)
Definition clear_step (docname : string)
    (inv : gmap string (string * objtype))
    (item : string * (string * objtype)) : gmap string (string * objtype) :=
  let '(fullname, (fn, _)) := item in
  if decide (fn = docname) then delete fullname inv else inv.

Definition clear_doc (docname : string)
    (inv : gmap string (string * objtype)) : gmap string (string * objtype) :=
  fold_left (clear_step docname) (map_to_list inv) inv.

(** What Sphinx's [make_refnode(builder, fromdocname, todocname, targetid,
    child, title)] is given. *)
Record refnode : Type := {
  ref_fromdocname : string;
  ref_todocname : string;
  ref_targetid : string;
  ref_child : node;
  ref_title : string
}.

Definition make_refnode (fromdocname todocname targetid : string)
    (child : node) (title : string) : refnode :=
  {| ref_fromdocname := fromdocname; ref_todocname := todocname;
     ref_targetid := targetid; ref_child := child; ref_title := title |}.

(** [None] is Python's [None]: no link. *)
Definition resolve_xref (inv : gmap string (string * objtype))
    (fromdocname typ target : string) (contnode : node) : option refnode :=
  match inv !! target with
  | None => None
  | Some obj => Some (make_refnode fromdocname (fst obj) target contnode target)
  end.

Definition get_objects (inv : gmap string (string * objtype))
    : list (string * string * objtype * string * string * nat) :=
  (fun '(refname, (docname, type_)) =>
     (refname, refname, type_, docname, refname, 1)) <$> map_to_list inv.

Section Passes.
Variable doc2path : string -> string.

Definition insert_step (w : world) (decl : declaration) : world :=
  let '(self, name, sig, signode) := decl in
  (add_target_and_index doc2path self name sig signode w).2.

(** The declarations of the open document, indexed in source order. *)
Definition insert_all (decls : list declaration) (w : world) : world :=
  fold_left insert_step decls w.

(** Reading document [doc] again: its entries are cleared, the document
    is opened with the ids [ids] it has before any declaration, and its
    declarations are indexed. *)
Definition rebuild (doc : string) (ids : gset string)
    (decls : list declaration) (w : world) : world :=
  insert_all decls
    (open_document doc ids (set_objects w (clear_doc doc (objects w)))).
End Passes.

(** ** PlSqlTypedField *)

(** The attributes of a typed field: [PlSqlObject.doc_field_types] builds
    one with [typerolename='obj'], no [rolename] and no collapsing. *)
Record typed_field : Type := {
  label : string;
  rolename : option string;
  typerolename : option string;
  can_collapse : bool
}.

Definition parameter_field : typed_field :=
  {| label := "Parameters"; rolename := None;
     typerolename := Some "obj"; can_collapse := false |}.

(** [nodes.emphasis], the default inner node of [make_xref]. *)
Definition default_innernode : string -> string -> node := emphasis.

(** [isinstance(n, nodes.Text)] and [n.astext()] for such a node. *)
Definition is_Text (n : node) : bool :=
  match n with
  | Text _ => true
  | _ => false
  end.

Definition astext (n : node) : string :=
  match n with
  | Text s => s
  | _ => ""
  end.

Definition par_add (par : list node) (n : node) : list node := par ++ [n].

Section TypedField.
(** [self.make_xref(rolename, domain, target, innernode)], inherited from
    Sphinx's [Field]. *)
Variable make_xref :
  option string -> string -> string -> (string -> string -> node) -> node.

(** The part of [handle_item] that renders a type: [fieldtype] is the
    value popped from [types]. *)
Definition render_type (self : typed_field) (domain : string)
    (fieldtype : list node) (par : list node) : list node :=
  if (length fieldtype =? 1)%nat && forallb is_Text (firstn 1 fieldtype) then
    let typename := Py.join "" (astext <$> fieldtype) in
    let typename_components := Py.split " " typename in
    if (length typename_components =? 1)%nat then
      par_add par (make_xref (typerolename self) domain typename default_innernode)
    else
      let par := par_add par (Text (Py.join " " (Py.init typename_components))) in
      let par := par_add par (Text " ") in
      par_add par (make_xref (typerolename self) domain
                     (Py.final typename_components) default_innernode)
  else par ++ fieldtype.

(** [handle_item]: the paragraph built, and [types] after the [pop]. *)
Definition handle_item (self : typed_field) (domain : string)
    (types : gmap string (list node)) (fieldarg : string) (content : list node)
    : node * gmap string (list node) :=
  let par := [] in
  let par := par_add par (make_xref (rolename self) domain fieldarg strong) in
  let '(par, types) :=
    match types !! fieldarg with
    | Some fieldtype =>
        let par := par_add par (Text " (") in
        let types := delete fieldarg types in
        let par := render_type self domain fieldtype par in
        (par_add par (Text ")"), types)
    | None => (par, types)
    end in
  let par := par_add par (Text " -- ") in
  (paragraph (par ++ content)%list, types).

Definition item_step (self : typed_field) (domain : string)
    (acc : list node * gmap string (list node))
    (item : string * list node) : list node * gmap string (list node) :=
  let '(body, types) := acc in
  let '(fieldarg, content) := item in
  let '(par, types) := handle_item self domain types fieldarg content in
  ((body ++ [list_item [par]])%list, types).

Definition make_field (self : typed_field) (types : gmap string (list node))
    (domain : string) (items : list (string * list node))
    : node * gmap string (list node) :=
  let fieldname := field_name (label self) in
  let '(bodynode, types) :=
    match items with
    | [(fieldarg, content)] =>
        if can_collapse self then handle_item self domain types fieldarg content
        else
          let '(body, types) := fold_left (item_step self domain) items ([], types) in
          (bullet_list body, types)
    | _ =>
        let '(body, types) := fold_left (item_step self domain) items ([], types) in
        (bullet_list body, types)
    end in
  (field [fieldname; field_body [bodynode]], types).
End TypedField.

(** Sphinx's [Field.make_xref]: without a role the inner node alone,
    otherwise a [pending_xref] around it. *)
Definition sphinx_make_xref (rolename : option string) (domain target : string)
    (innernode : string -> string -> node) : node :=
  match rolename with
  | Some role =>
      if Py.nonempty role
      then pending_xref domain role target [innernode target target]
      else innernode target target
  | None => innernode target target
  end.

(** * Observations and examples

    What the properties below are stated with: the parts of a result a
    claim speaks about, and the inputs of the examples. *)

(** The tokens that become parameters: the pieces between commas that the
    loop does not pass over, stripped. *)
Definition parameters (arglist : string) : list string :=
  Py.strip <$> List.filter (fun t => negb (blank t)) (Py.split "," arglist).

Definition parameter_nodes (tokens : list string) : list node :=
  (fun t => desc_parameter t t) <$> tokens.

(** The prefix in force, when there is one to be had. *)
Definition effective_prefix (temp : temp_data) (name_prefix : option string)
    : string :=
  if inside_package temp then default "" (current_package temp) ++ "."
  else default "" name_prefix.

(** The children [handle_signature] appends for a parsed signature. *)
Definition signature_nodes (self : directive) (temp : temp_data)
    (name_prefix : option string) (name : string)
    (arglist retann : option string) : list node :=
  let sp := objtype_name (self_objtype self) ++ " " in
  let np := effective_prefix temp name_prefix in
  ([desc_annotation sp sp]
   ++ (if inside_package temp then [] else [desc_annotation np np])
   ++ [desc_name name name]
   ++ (if Py.truthy arglist
       then [desc_parameterlist (parameter_nodes (parameters (default "" arglist)))]
       else [])
   ++ (if Py.truthy retann
       then [desc_returns (default "" retann) (default "" retann)]
       else []))%list.

(** The texts of the parameters in the parameter lists of a signature
    node, left to right. *)
Definition parameter_texts (children : list node) : list string :=
  flat_map (fun c =>
    match c with
    | desc_parameterlist ps =>
        flat_map (fun p =>
          match p with
          | desc_parameter _ t => [t]
          | _ => []
          end) ps
    | _ => []
    end) children.

(** What a resolution found: the canonical name and the document of the
    definition, whatever is displayed. *)
Definition resolved_symbol (r : option refnode) : option (string * string) :=
  (fun link => (ref_targetid link, ref_todocname link)) <$> r.



(** An index and directives for the examples. *)
Definition no_temp : temp_data :=
  {| in_package := None; current_package := None |}.

Definition new_signode : desc_signature :=
  {| sig_children := []; sig_names := []; sig_ids := []; sig_first := false |}.

Definition new_directive (t : objtype) : directive :=
  {| self_objtype := t; lineno := 1; names := []; indexnode_entries := [] |}.

Definition new_world (doc : string) : world :=
  {| docname := doc; objects := ∅; document_ids := ∅; reported := [] |}.

Definition once_declared : world :=
  (add_target_and_index (fun doc => doc) (new_directive procedure)
     "pkg1.run" "run" new_signode (new_world "d1")).2.

(** The declarations of two documents that both define [pkg1.run]. *)
Definition first_document : list declaration :=
  [ (new_directive package, "pkg1", "pkg1", new_signode);
    (new_directive procedure, "pkg1.run", "run", new_signode) ].

Definition second_document : list declaration :=
  [ (new_directive function, "pkg1.run", "pkg1.run", new_signode) ].

Definition third_document : list declaration :=
  [ (new_directive table, "orders", "orders", new_signode) ].

Definition both_read : world :=
  insert_all (fun doc => doc) second_document
    (open_document "d2" ∅
       (insert_all (fun doc => doc) first_document (new_world "d1"))).

Definition first_and_third_read : world :=
  insert_all (fun doc => doc) third_document
    (open_document "d3" ∅
       (insert_all (fun doc => doc) first_document (new_world "d1"))).

(** [enterPackage("pkg1")]: the package directive has parsed its own
    signature, so its [names] begin with ["pkg1"]. *)
Definition in_pkg1 : temp_data :=
  before_content
    {| self_objtype := package; lineno := 1; names := ["pkg1"];
       indexnode_entries := [] |}
    no_temp.

Definition in_out_types : gmap string (list node) :=
  {[ "p_item" := [Text "in out custom_type"] ]}.

Definition number_types : gmap string (list node) :=
  {[ "p_count" := [Text "number"] ]}.

(** ** What a pattern matches, said without the search

    [Matches r pre rest g g']: the expression [r] matches the text [pre]
    when [rest] follows it, and takes the groups from [g] to [g']. *)

Module ReSpec.
Import Re.

Fixpoint all_match (a : atom) (s : string) : bool :=
  match s with
  | EmptyString => true
  | String c s' => atom_matches a c && all_match a s'
  end.

Inductive Matches : re -> string -> string -> groups -> groups -> Prop :=
  | M_Eps rest g : Matches Eps "" rest g g
  | M_One a c rest g :
      atom_matches a c = true -> Matches (One a) (String c "") rest g g
  | M_Star a pre rest g :
      all_match a pre = true -> Matches (Star a) pre rest g g
  | M_Plus a c pre rest g :
      atom_matches a c = true -> all_match a pre = true ->
      Matches (Plus a) (String c pre) rest g g
  | M_Seq r1 r2 p1 p2 rest g g1 g2 :
      Matches r1 p1 (p2 ++ rest) g g1 -> Matches r2 p2 rest g1 g2 ->
      Matches (Seq r1 r2) (p1 ++ p2) rest g g2
  | M_Opt_some r pre rest g g' :
      Matches r pre rest g g' -> Matches (Opt r) pre rest g g'
  | M_Opt_none r rest g : Matches (Opt r) "" rest g g
  | M_Group n r pre rest g g' :
      Matches r pre rest g g' ->
      Matches (Group n r) pre rest g (set_group n pre g')
  | M_Eos rest g :
      rest = "" \/ rest = String Chars.newline "" -> Matches Eos "" rest g g.

End ReSpec.

(** The parts of [plsql_sig_re], named. *)
Definition sig_re_prefix : Re.re :=
  Re.Opt (Re.Group 0 (Re.Seq (Re.Star Re.WordOrDot) (Re.One (Re.Lit ".")))).

Definition sig_re_name : Re.re :=
  Re.Group 1 (Re.Seq (Re.Opt (Re.One (Re.Lit "$"))) (Re.Plus Re.Word)).

Definition sig_re_args : Re.re :=
  Re.Opt (Re.seqs [ Re.One (Re.Lit "(");
                    Re.Group 2 (Re.Star Re.AnyChar);
                    Re.One (Re.Lit ")") ]).

Definition sig_re_return : Re.re :=
  Re.Opt (Re.seqs [ Re.Star Re.Space;
                    Re.lits "return";
                    Re.Star Re.Space;
                    Re.Group 3 (Re.Star Re.AnyChar) ]).

(** A string in lower case, as IGNORECASE compares it. *)
Fixpoint lower_string (s : string) : string :=
  match s with
  | EmptyString => EmptyString
  | String c s' => String (Chars.lower c) (lower_string s')
  end.

(** The text of the argument list as the signature carries it. *)
Definition args_text (arglist : option string) : string :=
  match arglist with
  | Some a => "(" ++ a ++ ")"
  | None => ""
  end.

(** The characters a name returned outside a package is made of: word
    characters, the dot and the dollar sign. *)
Definition name_char (c : ascii) : bool :=
  Chars.is_word c || Ascii.eqb c "." || Ascii.eqb c "$".

Fixpoint all_chars (f : ascii -> bool) (s : string) : bool :=
  match s with
  | EmptyString => true
  | String c s' => f c && all_chars f s'
  end.

(** The names a document declares, in source order. *)
Definition declared_names (decls : list declaration) : list string :=
  (fun decl : declaration => decl.1.1.2) <$> decls.

(** ** The tables of [PlSqlDomain] *)

(** The directive classes. *)
Inductive directive_class : Type :=
  | PlSqlPackage | PlSqlMethod | PlSqlLibrary
  | PlSqlType | PlSqlTable | PlSqlTrigger.

(** [PlSqlDomain.object_types]: for each name the label and the roles of
    [ObjType(label, *roles)]. *)
Definition object_types : gmap string (string * list string) :=
  list_to_map
    [ ("package", ("package", ["pkg"; "obj"]));
      ("procedure", ("procedure", ["meth"; "obj"]));
      ("function", ("function", ["meth"; "obj"]));
      ("library", ("library", ["lib"; "obj"]));
      ("type", ("type", ["type"; "obj"]));
      ("table", ("table", ["tbl"; "obj"]));
      ("trigger", ("trigger", ["trg"; "obj"])) ].

(** [PlSqlDomain.directives] *)
Definition directives : gmap string directive_class :=
  list_to_map
    [ ("package", PlSqlPackage);
      ("procedure", PlSqlMethod);
      ("function", PlSqlMethod);
      ("library", PlSqlLibrary);
      ("type", PlSqlType);
      ("table", PlSqlTable);
      ("trigger", PlSqlTrigger) ].

(** The keys of [PlSqlDomain.roles]; each is bound to a [PlSqlXRefRole]. *)
Definition roles : gset string :=
  list_to_set ["pkg"; "meth"; "lib"; "type"; "tbl"; "trg"].




(** Two characters above 127 for the examples: the letter e with an acute
    accent, a word character, and the no-break space, a whitespace. *)
Definition e_acute : string := String (ascii_of_nat 233) "".
Definition nbsp : string := String (ascii_of_nat 160) "".

(** * Properties *)


(** ** Strings *)

Module PyFacts.
Import Py.

Lemma split_not_nil sep s : split sep s <> [].
Proof.
  destruct s as [|c s]; simpl; [discriminate|].
  destruct (Ascii.eqb c sep); [discriminate|].
  destruct (split sep s); discriminate.
Qed.

Lemma join_cons_cons sep p q ps :
  join sep (p :: q :: ps) = p ++ sep ++ join sep (q :: ps).
Proof. reflexivity. Qed.

Lemma split_join sep s : join (String sep EmptyString) (split sep s) = s.
Proof.
  induction s as [|c s IH]; [reflexivity|].
  pose proof (split_not_nil sep s) as Hnil.
  cbn [split].
  destruct (Ascii.eqb_spec c sep) as [->|Hne];
    destruct (split sep s) as [|q ps]; try congruence.
  - rewrite join_cons_cons, IH. reflexivity.
  - destruct ps as [|q' ps].
    + cbn [join] in *. congruence.
    + rewrite join_cons_cons in *. rewrite <- IH. reflexivity.
Qed.

Lemma split_no_sep sep s :
  Forall (fun piece => has_char sep piece = false) (split sep s).
Proof.
  induction s as [|c s IH]; simpl.
  - constructor; [reflexivity|constructor].
  - destruct (Ascii.eqb_spec c sep) as [->|Hne].
    + constructor; [reflexivity|assumption].
    + pose proof (split_not_nil sep s) as Hnil.
      destruct (split sep s) as [|q ps]; [congruence|].
      inversion IH; subst. constructor; [|assumption].
      simpl. destruct (Ascii.eqb_spec c sep); [congruence|]. assumption.
Qed.

Lemma split_one_piece sep s :
  length (split sep s) = 1%nat <-> has_char sep s = false.
Proof.
  induction s as [|c s IH]; simpl; [tauto|].
  pose proof (split_not_nil sep s) as Hnil.
  destruct (Ascii.eqb_spec c sep) as [->|Hne]; simpl.
  - destruct (split sep s); [congruence|]. simpl. split; [lia|discriminate].
  - destruct (split sep s) as [|q ps]; [congruence|]. exact IH.
Qed.

Lemma append_cons c (s t : string) : String c s ++ t = String c (s ++ t).
Proof. reflexivity. Qed.

Lemma append_nil_l (t : string) : "" ++ t = t.
Proof. reflexivity. Qed.

Lemma append_nil_r (s : string) : s ++ "" = s.
Proof. induction s as [|c s IH]; [reflexivity|]. rewrite append_cons, IH. reflexivity. Qed.

Lemma append_assoc (s t u : string) : (s ++ t) ++ u = s ++ t ++ u.
Proof.
  induction s as [|c s IH]; [reflexivity|].
  rewrite !append_cons, IH. reflexivity.
Qed.

(** [lstrip] removes a run of whitespace from the front, and all of it. *)
Lemma lstrip_spec s :
  exists l, s = l ++ lstrip s /\ all_space l = true
            /\ starts_with_space (lstrip s) = false.
Proof.
  induction s as [|c s (l & Hs & Hl & Hst)].
  - exists "". auto.
  - cbn [lstrip]. destruct (Chars.is_space c) eqn:Hc.
    + exists (String c l). rewrite append_cons, <- Hs. cbn [all_space].
      rewrite Hc, Hl. auto.
    + exists "". cbn [starts_with_space all_space]. auto.
Qed.

Lemma rstrip_empty s : rstrip s = "" -> all_space s = true.
Proof.
  induction s as [|c s IH]; [reflexivity|]. cbn [rstrip all_space].
  destruct (rstrip s) eqn:Hr; [|discriminate].
  destruct (Chars.is_space c); [auto|discriminate].
Qed.

(** [rstrip] removes a run of whitespace from the back, and all of it. *)
Lemma rstrip_spec s :
  exists r, s = rstrip s ++ r /\ all_space r = true
            /\ ends_with_space (rstrip s) = false.
Proof.
  induction s as [|c s (r & Hs & Hr & Hen)].
  - exists "". auto.
  - cbn [rstrip]. destruct (rstrip s) as [|c' t] eqn:Ht.
    + destruct (Chars.is_space c) eqn:Hc.
      * exists (String c s). rewrite append_nil_l. cbn [all_space].
        rewrite Hc, (rstrip_empty s Ht). auto.
      * exists r. rewrite append_cons, <- Hs. cbn [ends_with_space].
        rewrite Hc. auto.
    + exists r. rewrite append_cons, <- Hs. auto.
Qed.

Lemma rstrip_head c s :
  Chars.is_space c = false ->
  exists t, rstrip (String c s) = String c t.
Proof.
  intros Hc. cbn [rstrip]. destruct (rstrip s); [rewrite Hc|]; eauto.
Qed.

Lemma all_space_app l r :
  all_space (l ++ r) = all_space l && all_space r.
Proof.
  induction l as [|c l IH]; [reflexivity|].
  rewrite append_cons. cbn [all_space]. rewrite IH. apply andb_assoc.
Qed.

(** What [strip] returns on a token the loop keeps: the token without
    the whitespace around it, and something is left. *)
Lemma strip_spec token :
  blank token = false ->
  exists l r, token = l ++ strip token ++ r
              /\ all_space l = true /\ all_space r = true
              /\ nonempty (strip token) = true
              /\ starts_with_space (strip token) = false
              /\ ends_with_space (strip token) = false.
Proof.
  intros Hb. unfold strip.
  destruct (lstrip_spec token) as (l & Hl & Hsl & Hst).
  destruct (rstrip_spec (lstrip token)) as (r & Hr & Hsr & Hen).
  exists l, r. split; [congruence|]. do 2 (split; [assumption|]).
  destruct (lstrip token) as [|c t] eqn:Hlt.
  - exfalso. rewrite append_nil_r in Hl. subst token. unfold blank in Hb.
    apply orb_false_elim in Hb as [Hb Hsp].
    apply orb_false_elim in Hb as [Hne _].
    destruct l; cbn in *; congruence.
  - cbn [starts_with_space] in Hst.
    destruct (rstrip_head c t Hst) as [t' Ht'].
    rewrite Ht' in *. cbn [nonempty starts_with_space]. auto.
Qed.

End PyFacts.

(** ** The matcher *)

Module ReFacts.
Import Re.

Lemma star_reaches {R} a s (k : string -> option R) res :
  star a s k = Some res ->
  exists rest, k rest = Some res /\ (String.length rest <= String.length s)%nat.
Proof.
  induction s as [|c s IH]; cbn [star]; intros H.
  - exists "". auto.
  - destruct (atom_matches a c).
    + destruct (star a s k) as [r|] eqn:Hs.
      * destruct (IH H) as (rest & Hk & Hlen).
        exists rest. split; [assumption|]. cbn [String.length]. lia.
      * exists (String c s). auto.
    + exists (String c s). auto.
Qed.

(** A successful run called its continuation, on a suffix of the input
    and with groups that differ only at the groups of the expression. *)
Lemma run_reaches {R} r :
  forall s g (k : string -> groups -> option R) res,
    run r s g k = Some res ->
    exists rest g',
      k rest g' = Some res
      /\ (String.length rest + (if consuming r then 1 else 0) <= String.length s)%nat
      /\ length g' = length g
      /\ forall n, ~ In n (group_ids r) -> g' !! n = g !! n.
Proof.
  induction r as [|a|a|a|r1 IH1 r2 IH2|r IH|m r IH|];
    intros s g k res H; cbn [run consuming group_ids] in *.
  - exists s, g. repeat split; auto. lia.
  - destruct s as [|c s]; [discriminate|].
    destruct (atom_matches a c); [|discriminate].
    exists s, g. repeat split; auto. cbn [String.length]. lia.
  - apply star_reaches in H as (rest & Hk & Hlen).
    exists rest, g. repeat split; auto. lia.
  - destruct s as [|c s]; [discriminate|].
    destruct (atom_matches a c); [|discriminate].
    apply star_reaches in H as (rest & Hk & Hlen).
    exists rest, g. repeat split; auto. cbn [String.length]. lia.
  - apply IH1 in H as (rest1 & g1 & H & Hlen1 & Hg1 & Hfr1).
    apply IH2 in H as (rest2 & g2 & H & Hlen2 & Hg2 & Hfr2).
    exists rest2, g2. split; [assumption|]. split.
    + destruct (consuming r1), (consuming r2); cbn [orb]; lia.
    + split; [congruence|]. intros n Hn.
      rewrite Hfr2, Hfr1; [reflexivity| |];
        intros Hin; apply Hn, in_or_app; auto.
  - destruct (run r s g k) as [res'|] eqn:Hr.
    + apply IH in Hr as (rest & g' & Hk & Hlen & Hg & Hfr).
      exists rest, g'. split; [congruence|]. repeat split; auto.
      destruct (consuming r); lia.
    + exists s, g. repeat split; auto. lia.
  - apply IH in H as (rest & g' & Hk & Hlen & Hg & Hfr).
    exists rest, (set_group m (consumed s rest) g').
    split; [assumption|]. split; [assumption|]. split.
    + unfold set_group. rewrite length_insert. assumption.
    + intros n Hn. unfold set_group.
      rewrite list_lookup_insert_ne by (intros ->; apply Hn; left; reflexivity).
      apply Hfr. intros Hin. apply Hn. right. assumption.
  - exists s, g. split.
    + destruct s as [|c [|c' s]]; try discriminate; [assumption|].
      destruct (Ascii.eqb c Chars.newline); [assumption|discriminate].
    + repeat split; auto. lia.
Qed.

Lemma run_Seq {R} r1 r2 s g (k : string -> groups -> option R) :
  run (Seq r1 r2) s g k = run r1 s g (fun rest g' => run r2 rest g' k).
Proof. reflexivity. Qed.

Lemma run_Group {R} n r s g (k : string -> groups -> option R) :
  run (Group n r) s g k
  = run r s g (fun rest g' => k rest (set_group n (consumed s rest) g')).
Proof. reflexivity. Qed.

Lemma consumed_nonempty s rest :
  (String.length rest < String.length s)%nat ->
  Py.nonempty (consumed s rest) = true.
Proof.
  unfold consumed. intros Hlen.
  destruct s as [|c s]; cbn [String.length] in *; [lia|].
  replace (S (String.length s) - String.length rest)%nat
    with (S (String.length s - String.length rest)) by lia.
  reflexivity.
Qed.

End ReFacts.

(** ** The signature pattern: the name always takes part

    The invariant of a parsed signature that [handle_signature] relies on
    when it concatenates the name. *)
Lemma sig_groups_name sig name_prefix name arglist retann :
  sig_groups sig = Some (name_prefix, name, arglist, retann) ->
  exists n, name = Some n /\ Py.nonempty n = true.
Proof.
  unfold sig_groups, Re.rmatch.
  destruct (Re.run plsql_sig_re sig (replicate 4 None) (fun _ g => Some g))
    as [res|] eqn:Hrun; [|discriminate].
  unfold plsql_sig_re in Hrun. cbn [Re.seqs] in Hrun.
  rewrite ReFacts.run_Seq in Hrun.
  apply ReFacts.run_reaches in Hrun as (s1 & g1 & Hrun & _ & Hg1 & _).
  rewrite ReFacts.run_Seq, ReFacts.run_Group in Hrun.
  apply ReFacts.run_reaches in Hrun as (s2 & g2 & Hrun & Hlen & Hg2 & _).
  apply ReFacts.run_reaches in Hrun as (s3 & g3 & Hrun & _ & Hg3 & Hfr).
  injection Hrun as <-.
  specialize (Hfr 1%nat).
  cbn in Hfr. cbn in Hlen. cbn in Hg1.
  unfold Re.set_group in *. rewrite length_insert in Hg3.
  rewrite list_lookup_insert_eq in Hfr by lia.
  assert (Hfr' : g3 !! 1%nat = Some (Some (Re.consumed s1 s2))).
  { apply Hfr. intros [H|[H|[]]]; discriminate. }
  destruct g3 as [|p [|n [|a [|r [|]]]]]; cbn in Hg3; try lia.
  intros [= <- <- <- <-]. cbn in Hfr'. injection Hfr' as ->.
  eexists; split; [reflexivity|].
  apply ReFacts.consumed_nonempty. lia.
Qed.

(** ** What [handle_signature] builds *)

Lemma add_to_last_app cs ps p :
  add_to_last (cs ++ [desc_parameterlist ps]) p
  = (cs ++ [desc_parameterlist (ps ++ [p])])%list.
Proof.
  induction cs as [|c cs IH]; [reflexivity|].
  cbn [app add_to_last]. rewrite IH.
  destruct c; try reflexivity.
  destruct cs; reflexivity.
Qed.

Lemma fold_arg_step tokens : forall cs ps ns is_ fst_,
  fold_left arg_step tokens
    {| sig_children := cs ++ [desc_parameterlist ps];
       sig_names := ns; sig_ids := is_; sig_first := fst_ |}
  = {| sig_children :=
         cs ++ [desc_parameterlist
                  (ps ++ parameter_nodes
                           (Py.strip <$> List.filter (fun t => negb (blank t)) tokens))];
       sig_names := ns; sig_ids := is_; sig_first := fst_ |}.
Proof.
  induction tokens as [|t tokens IH]; intros cs ps ns is_ fst_.
  - cbn. rewrite app_nil_r. reflexivity.
  - cbn [fold_left List.filter]. unfold arg_step at 2.
    destruct (blank t); cbn [negb].
    + apply IH.
    + unfold add_parameter. cbn [sig_children sig_names sig_ids sig_first].
      rewrite add_to_last_app, IH. cbn [fmap list_fmap parameter_nodes].
      rewrite <- app_assoc. reflexivity.
Qed.

Lemma nonempty_false s : Py.nonempty s = false -> s = "".
Proof. destruct s; [reflexivity|discriminate]. Qed.

Lemma signature_prefix_nonempty self sig :
  Py.nonempty (get_signature_prefix self sig) = true.
Proof. unfold get_signature_prefix. destruct (self_objtype self); reflexivity. Qed.

(** [handle_signature] on a signature that parses, in a context that can
    name its package: the full name and the nodes appended, in full. *)
Lemma handle_signature_ok self temp sig signode name_prefix name arglist retann :
  sig_groups sig = Some (name_prefix, Some name, arglist, retann) ->
  (inside_package temp = true -> is_Some (current_package temp)) ->
  handle_signature self temp sig signode
  = Ok (effective_prefix temp name_prefix ++ name,
        {| sig_children :=
             sig_children signode
             ++ signature_nodes self temp name_prefix name arglist retann;
           sig_names := sig_names signode;
           sig_ids := sig_ids signode;
           sig_first := sig_first signode |}).
Proof.
  intros Hm Hpkg. unfold handle_signature. rewrite Hm.
  rewrite signature_prefix_nonempty.
  unfold signature_nodes, effective_prefix, get_signature_prefix.
  set (sp := objtype_name (self_objtype self) ++ " ").
  assert (Hnp : (if Py.truthy name_prefix then default "" name_prefix else "")
                = default "" name_prefix).
  { destruct name_prefix as [[|c p]|]; reflexivity. }
  rewrite Hnp. clear Hnp.
  destruct (inside_package temp) eqn:Hin.
  - destruct (Hpkg eq_refl) as [pkg Hcur]. rewrite Hcur. cbn [default negb].
    assert (Hne : Py.nonempty (pkg ++ ".") = true) by (destruct pkg; reflexivity).
    rewrite Hne. f_equal. f_equal. destruct signode as [cs ns is_ fst_].
    unfold add_child. cbn [sig_children sig_names sig_ids sig_first].
    destruct (Py.truthy arglist), (Py.truthy retann);
      rewrite ?fold_arg_step; cbn [sig_children sig_names sig_ids sig_first app];
      rewrite <- ?app_assoc; reflexivity.
  - cbn [negb].
    assert (Hfull : (if Py.nonempty (default "" name_prefix)
                     then "" ++ default "" name_prefix else "")
                    = default "" name_prefix).
    { destruct (default "" name_prefix); reflexivity. }
    rewrite Hfull. f_equal. f_equal. destruct signode as [cs ns is_ fst_].
    unfold add_child. cbn [sig_children sig_names sig_ids sig_first].
    destruct (Py.truthy arglist), (Py.truthy retann);
      rewrite ?fold_arg_step; cbn [sig_children sig_names sig_ids sig_first app];
      rewrite <- ?app_assoc; reflexivity.
Qed.

Lemma handle_signature_Ok_inv self temp sig signode res :
  handle_signature self temp sig signode = Ok res ->
  inside_package temp = true -> is_Some (current_package temp).
Proof.
  unfold handle_signature. intros H Hin. rewrite Hin in H.
  destruct (sig_groups sig) as [[[[p n] a] r]|]; [|discriminate].
  destruct (current_package temp); [eauto|discriminate].
Qed.

Lemma parameter_texts_app cs1 cs2 :
  parameter_texts (cs1 ++ cs2) = (parameter_texts cs1 ++ parameter_texts cs2)%list.
Proof. apply flat_map_app. Qed.

Lemma parameter_texts_nodes tokens :
  parameter_texts [desc_parameterlist (parameter_nodes tokens)] = tokens.
Proof.
  unfold parameter_texts. cbn [flat_map]. rewrite app_nil_r.
  induction tokens as [|t tokens IH]; [reflexivity|].
  cbn [parameter_nodes fmap list_fmap flat_map app]. f_equal. exact IH.
Qed.

(** ** The loop of [clear_doc] *)

Lemma clear_fold_lookup d (l : list (string * (string * objtype))) :
  forall (m : gmap string (string * objtype)) k,
    fold_left (clear_step d) l m !! k
    = if bool_decide (Exists (fun item => item.1 = k /\ item.2.1 = d) l)
      then None else m !! k.
Proof.
  induction l as [|[k' [fn t]] l IH]; intros m k; cbn [fold_left].
  - case_bool_decide as HE; [inversion HE|reflexivity].
  - rewrite IH. unfold clear_step.
    repeat case_bool_decide; try reflexivity.
    + exfalso. rename select (¬ Exists _ (_ :: _)) into Hn.
      apply Hn. apply Exists_cons_tl. assumption.
    + rename select (Exists _ (_ :: _)) into HE.
      apply Exists_cons in HE as [[Hk Hd]|HE]; [|contradiction].
      cbn in Hk, Hd. subst. rewrite decide_True by reflexivity.
      apply lookup_delete_eq.
    + case_decide; [|reflexivity].
      rewrite lookup_delete_ne; [reflexivity|].
      intros ->. rename select (¬ Exists _ (_ :: _)) into Hn.
      apply Hn. apply Exists_cons_hd. cbn. auto.
Qed.

Lemma clear_doc_lookup d (inv : gmap string (string * objtype)) k :
  clear_doc d inv !! k
  = match inv !! k with
    | Some (fn, t) => if decide (fn = d) then None else Some (fn, t)
    | None => None
    end.
Proof.
  unfold clear_doc. rewrite clear_fold_lookup.
  case_bool_decide as HE.
  - apply Exists_exists in HE as ([k' [fn t]] & Hin & Hk & Hd).
    cbn in Hk, Hd. subst. apply elem_of_map_to_list in Hin.
    rewrite Hin. rewrite decide_True by reflexivity. reflexivity.
  - destruct (inv !! k) as [[fn t]|] eqn:Hk; [|reflexivity].
    case_decide as Hd; [|reflexivity].
    exfalso. apply HE. apply Exists_exists.
    exists (k, (fn, t)). split; [|cbn; auto].
    apply elem_of_map_to_list. assumption.
Qed.

(** ** One call of [add_target_and_index] *)

Section IndexingFacts.
Variable doc2path : string -> string.

Lemma add_world_skip self name sig signode w :
  name ∈ document_ids w ->
  (add_target_and_index doc2path self name sig signode w).2 = w.
Proof.
  intros Hin. unfold add_target_and_index.
  rewrite decide_True by assumption. reflexivity.
Qed.

Lemma add_world_insert self name sig signode w :
  name ∉ document_ids w ->
  (add_target_and_index doc2path self name sig signode w).2
  = {| docname := docname w;
       objects := <[name := (docname w, self_objtype self)]> (objects w);
       document_ids := {[name]} ∪ document_ids w;
       reported :=
         match objects w !! name with
         | Some other => reported w ++ [duplicate_warning doc2path self name other]
         | None => reported w
         end |}.
Proof.
  intros Hin. unfold add_target_and_index.
  rewrite decide_False by assumption.
  unfold note_explicit_target. cbn [sig_ids]. rewrite last_snoc.
  destruct w as [dn inv ids rep]. cbn.
  destruct (inv !! name); reflexivity.
Qed.

Lemma insert_step_docname w decl :
  docname (insert_step doc2path w decl) = docname w.
Proof.
  destruct decl as [[[self name] sig] signode]. unfold insert_step.
  destruct (decide (name ∈ document_ids w)).
  - rewrite add_world_skip by assumption. reflexivity.
  - rewrite add_world_insert by assumption. reflexivity.
Qed.

Lemma insert_step_ids w w' decl :
  document_ids w = document_ids w' ->
  document_ids (insert_step doc2path w decl)
  = document_ids (insert_step doc2path w' decl).
Proof.
  intros Hids. destruct decl as [[[self name] sig] signode]. unfold insert_step.
  destruct (decide (name ∈ document_ids w)) as [Hin|Hin].
  - rewrite !add_world_skip by congruence. assumption.
  - rewrite !add_world_insert by congruence. cbn. congruence.
Qed.

Lemma insert_all_cons decl decls w :
  insert_all doc2path (decl :: decls) w
  = insert_all doc2path decls (insert_step doc2path w decl).
Proof. reflexivity. Qed.

(** Indexing a document adds to the index what it adds to an empty one,
    over whatever was there. *)
Lemma insert_all_union decls : forall w w',
  docname w = docname w' ->
  document_ids w = document_ids w' ->
  objects (insert_all doc2path decls w)
  = objects (insert_all doc2path decls (set_objects w' ∅)) ∪ objects w.
Proof.
  induction decls as [|decl decls IH]; intros w w' Hdoc Hids.
  - cbn. rewrite (left_id_L ∅ (∪)). reflexivity.
  - rewrite !insert_all_cons.
    set (w1 := insert_step doc2path w decl).
    set (w1' := insert_step doc2path (set_objects w' ∅) decl).
    assert (Hdoc1 : docname w1 = docname w1').
    { unfold w1, w1'. rewrite !insert_step_docname. exact Hdoc. }
    assert (Hids1 : document_ids w1 = document_ids w1').
    { unfold w1, w1'. apply insert_step_ids. exact Hids. }
    rewrite (IH w1 w1' Hdoc1 Hids1), (IH w1' w1' eq_refl eq_refl).
    rewrite <- (assoc_L (∪)). f_equal.
    unfold w1, w1'. destruct decl as [[[self name] sig] signode].
    unfold insert_step.
    destruct (decide (name ∈ document_ids w)) as [Hin|Hin].
    + rewrite !add_world_skip by (cbn; congruence). cbn.
      rewrite (left_id_L ∅ (∪)). reflexivity.
    + rewrite !add_world_insert by (cbn; congruence). cbn.
      rewrite insert_empty, <- insert_union_singleton_l. congruence.
Qed.
End IndexingFacts.

(** * The claims *)

(** C8: [clear_doc(docname)] removes exactly the symbols whose defining
    document is [docname]: the index afterwards is the index restricted to
    the entries of other documents, so that a name owned by [docname] is
    gone and a name owned by another document keeps its entry. *)
Theorem clear_doc_removes_exactly d (inv : gmap string (string * objtype)) :
  clear_doc d inv = filter (fun item => item.2.1 <> d) inv
  /\ forall k,
       clear_doc d inv !! k
       = match inv !! k with
         | Some (fn, t) => if decide (fn = d) then None else Some (fn, t)
         | None => None
         end.
Proof.
  split; [|apply clear_doc_lookup].
  apply map_eq. intros k. rewrite clear_doc_lookup.
  destruct (inv !! k) as [[fn t]|] eqn:Hk.
  - case_decide as Hd.
    + symmetry. apply map_lookup_filter_None. right.
      intros x Hx. rewrite Hk in Hx. injection Hx as <-. cbn. auto.
    + symmetry. apply map_lookup_filter_Some. split; [assumption|]. cbn. auto.
  - symmetry. apply map_lookup_filter_None. left. assumption.
Qed.

(** C3: [resolve_xref] returns a link exactly when the target is a key of
    the index, looked up as it is written; the link names the defining
    document and the target.  After [clear_doc] of the owning document the
    same target resolves to [None], a value and not an exception. *)
Theorem resolve_xref_exact (inv : gmap string (string * objtype))
    fromdocname typ target contnode d :
  resolve_xref inv fromdocname typ target contnode
  = (fun obj => make_refnode fromdocname obj.1 target contnode target)
      <$> inv !! target
  /\ (is_Some (resolve_xref inv fromdocname typ target contnode)
      <-> target ∈ dom inv)
  /\ resolve_xref (clear_doc d inv) fromdocname typ target contnode
     = match inv !! target with
       | Some (fn, _) =>
           if decide (fn = d) then None
           else resolve_xref inv fromdocname typ target contnode
       | None => None
       end.
Proof.
  unfold resolve_xref. rewrite clear_doc_lookup, elem_of_dom.
  destruct (inv !! target) as [[fn t]|]; cbn.
  - split; [reflexivity|]. split; [split; eauto|].
    case_decide; reflexivity.
  - split; [reflexivity|]. split; [|reflexivity].
    split; intros [x Hx]; discriminate.
Qed.

(** C9: the title of a reference, explicit or not, has no part in the
    lookup: [process_link] hands the target on unchanged, and two
    resolutions of one target find the same symbol or both find none. *)
Theorem explicit_title_does_not_affect_lookup {Env Node : Type}
    (env : Env) (refnode1 refnode2 : Node)
    (inv : gmap string (string * objtype))
    fromdocname typ target explicit1 explicit2 title1 title2 contnode1 contnode2 :
  let target1 := (process_link env refnode1 explicit1 title1 target).2 in
  let target2 := (process_link env refnode2 explicit2 title2 target).2 in
  target1 = target /\ target2 = target
  /\ resolved_symbol (resolve_xref inv fromdocname typ target1 contnode1)
     = resolved_symbol (resolve_xref inv fromdocname typ target2 contnode2)
  /\ resolved_symbol (resolve_xref inv fromdocname typ target1 contnode1)
     = (fun obj => (target, obj.1)) <$> inv !! target.
Proof.
  cbn. unfold resolve_xref, resolved_symbol.
  destruct (inv !! target) as [[fn t]|]; cbn; auto.
Qed.

(** A string the signature pattern does not match makes
    [handle_signature] raise [ValueError]: no name and no signature node
    come back, and the function has no other effect. *)
Theorem handle_signature_rejects self temp sig signode :
  sig_groups sig = None ->
  handle_signature self temp sig signode = Raise ValueError.
Proof. intros H. unfold handle_signature. rewrite H. reflexivity. Qed.

Lemma handle_signature_rejects_witness :
  handle_signature (new_directive procedure) no_temp "foo bar" new_signode
  = Raise ValueError.
Proof. apply handle_signature_rejects. vm_compute. reflexivity. Defined.

(** C10: when the name is already a key of [document.ids], as it is once
    the same document has declared it, [add_target_and_index] leaves the
    index, the reporter and the signature node as they are: the earlier
    definition stays and no warning is given. *)
Theorem add_target_and_index_known_id doc2path self name sig signode w :
  name ∈ document_ids w ->
  let '(_, signode', w') := add_target_and_index doc2path self name sig signode w in
  w' = w /\ signode' = signode.
Proof.
  intros Hin. unfold add_target_and_index.
  rewrite decide_True by assumption. auto.
Qed.

Lemma add_target_and_index_known_id_witness :
  "pkg1.run" ∈ document_ids once_declared
  /\ objects once_declared !! "pkg1.run" = Some ("d1", procedure)
  /\ let '(_, signode', w') :=
       add_target_and_index (fun doc => doc) (new_directive function)
         "pkg1.run" "run" new_signode once_declared in
     w' = once_declared /\ signode' = new_signode.
Proof.
  assert (Hin : "pkg1.run" ∈ document_ids once_declared).
  { apply (bool_decide_unpack _). vm_compute. exact I. }
  split; [exact Hin|]. split; [vm_compute; reflexivity|].
  apply (add_target_and_index_known_id (fun doc => doc) (new_directive function)
           "pkg1.run" "run" new_signode once_declared Hin).
Defined.

(** C1, as the code has it: two insertions of one name, each made while
    the name is not yet a key of the ids of the document being read (two
    documents, or one document read again).  The index then holds the
    second symbol under that name, and the second insertion reports one
    warning, which names the document of the first; the first reports
    nothing when the name was new. *)
Theorem add_target_and_index_duplicate doc2path self1 self2 name sig1 sig2
    signode1 signode2 w doc2 ids2 :
  name ∉ document_ids w ->
  name ∉ ids2 ->
  let w1 := (add_target_and_index doc2path self1 name sig1 signode1 w).2 in
  let w2 := (add_target_and_index doc2path self2 name sig2 signode2
               (open_document doc2 ids2 w1)).2 in
  let dup :=
    {| message := ("duplicate object description of " ++ name ++ ", ")
                    ++ "other instance in " ++ doc2path (docname w);
       line := lineno self2 |} in
  objects w2 !! name = Some (doc2, self_objtype self2)
  /\ reported w2 = (reported w1 ++ [dup])%list
  /\ reported w1
     = match objects w !! name with
       | Some other =>
           (reported w ++ [duplicate_warning doc2path self1 name other])%list
       | None => reported w
       end.
Proof.
  intros Hw Hids. cbn zeta.
  rewrite (add_world_insert doc2path self1 name sig1 signode1 w Hw).
  rewrite add_world_insert by exact Hids.
  cbn [objects reported docname open_document].
  rewrite !lookup_insert_eq. auto.
Qed.

Lemma add_target_and_index_duplicate_witness :
  let w1 := (add_target_and_index (fun doc => doc) (new_directive procedure)
               "pkg1.run" "run" new_signode (new_world "d1")).2 in
  let w2 := (add_target_and_index (fun doc => doc) (new_directive function)
               "pkg1.run" "run" new_signode (open_document "d2" ∅ w1)).2 in
  objects w2 !! "pkg1.run" = Some ("d2", function)
  /\ reported w2
     = [{| message := "duplicate object description of pkg1.run, other instance in d1";
           line := 1 |}].
Proof.
  destruct (add_target_and_index_duplicate (fun doc => doc)
              (new_directive procedure) (new_directive function)
              "pkg1.run" "run" "run" new_signode new_signode
              (new_world "d1") "d2" ∅) as (Hobj & Hrep & Hfirst).
  - apply (bool_decide_unpack _). vm_compute. exact I.
  - apply (bool_decide_unpack _). vm_compute. exact I.
  - split; [exact Hobj|]. cbn zeta in *. rewrite Hrep, Hfirst. reflexivity.
Defined.

(** C1 as stated fails inside one document: the second insertion of the
    name is passed over, the index keeps the first symbol and nothing is
    reported. *)
Lemma same_document_pair_keeps_first :
  let w1 := (add_target_and_index (fun doc => doc) (new_directive procedure)
               "pkg1.run" "run" new_signode (new_world "d1")).2 in
  let w2 := (add_target_and_index (fun doc => doc) (new_directive function)
               "pkg1.run" "run" new_signode w1).2 in
  objects w2 !! "pkg1.run" = Some ("d1", procedure)
  /\ objects w2 !! "pkg1.run" <> Some ("d1", function)
  /\ reported w2 = [].
Proof.
  cbn zeta. split; [vm_compute; reflexivity|].
  split; [|vm_compute; reflexivity].
  intros H. vm_compute in H. discriminate H.
Qed.

(** C7, as the code has it: when the entries the document owns in the
    index are just the entries its declarations insert (none of its names
    has been taken over by a later document, and nothing it no longer
    declares is left), [clear_doc] followed by indexing the document again
    gives back the same index. *)
Theorem rebuild_restores doc2path doc ids decls w :
  let produced :=
    objects (insert_all doc2path decls (open_document doc ids (set_objects w ∅))) in
  produced ⊆ objects w ->
  filter (fun item => item.2.1 = doc) (objects w) ⊆ produced ->
  objects (rebuild doc2path doc ids decls w) = objects w.
Proof.
  intros produced Hsub Hown. unfold rebuild.
  rewrite (insert_all_union doc2path decls _
             (open_document doc ids (set_objects w (clear_doc doc (objects w))))
             eq_refl eq_refl).
  change (set_objects (open_document doc ids (set_objects w (clear_doc doc (objects w)))) ∅)
    with (open_document doc ids (set_objects w ∅)).
  fold produced. cbn [objects open_document set_objects].
  apply map_eq. intros k. rewrite lookup_union, clear_doc_lookup.
  destruct (produced !! k) as [v|] eqn:Hp.
  - rewrite (lookup_weaken _ _ _ _ Hp Hsub).
    destruct v as [fn t]. case_decide; reflexivity.
  - destruct (objects w !! k) as [[fn t]|] eqn:Hk; [|reflexivity].
    case_decide as Hd; [|reflexivity].
    exfalso.
    assert (Hf : filter (fun item => item.2.1 = doc) (objects w) !! k = Some (fn, t)).
    { apply map_lookup_filter_Some. split; [assumption|]. cbn. assumption. }
    rewrite (lookup_weaken _ _ _ _ Hf Hown) in Hp. discriminate.
Qed.

Lemma rebuild_restores_witness :
  objects (rebuild (fun doc => doc) "d1" ∅ first_document first_and_third_read)
  = objects first_and_third_read.
Proof.
  apply (rebuild_restores (fun doc => doc) "d1" ∅ first_document
           first_and_third_read).
  - apply (bool_decide_unpack _). vm_compute. exact I.
  - apply (bool_decide_unpack _). vm_compute. exact I.
Defined.

(** C7 as stated fails when a later document has taken over a name: the
    document read again takes the name back. *)
Lemma rebuild_takes_name_back :
  objects both_read !! "pkg1.run" = Some ("d2", function)
  /\ objects (rebuild (fun doc => doc) "d1" ∅ first_document both_read)
       !! "pkg1.run" = Some ("d1", procedure)
  /\ objects (rebuild (fun doc => doc) "d1" ∅ first_document both_read)
     <> objects both_read.
Proof.
  assert (H1 : objects both_read !! "pkg1.run" = Some ("d2", function))
    by (vm_compute; reflexivity).
  assert (H2 : objects (rebuild (fun doc => doc) "d1" ∅ first_document both_read)
                 !! "pkg1.run" = Some ("d1", procedure))
    by (vm_compute; reflexivity).
  split; [exact H1|]. split; [exact H2|].
  intros Heq. rewrite Heq, H1 in H2. discriminate H2.
Qed.

(** C2: for a signature that parses, in a context that can name its
    package, the name returned is the current package, a dot and the name
    when inside a package, whatever prefix the string carries; otherwise it
    is the prefix of the string (empty when there is none) and the name. *)
Theorem handle_signature_qualifies self temp sig signode
    name_prefix name arglist retann :
  sig_groups sig = Some (name_prefix, name, arglist, retann) ->
  (inside_package temp = true -> is_Some (current_package temp)) ->
  exists n signode',
    name = Some n
    /\ handle_signature self temp sig signode
       = Ok (if inside_package temp
             then default "" (current_package temp) ++ "." ++ n
             else default "" name_prefix ++ n,
             signode').
Proof.
  intros Hm Hpkg.
  destruct (sig_groups_name _ _ _ _ _ Hm) as (n & -> & _).
  exists n. eexists. split; [reflexivity|].
  rewrite (handle_signature_ok _ _ _ _ _ _ _ _ Hm Hpkg).
  unfold effective_prefix. destruct (inside_package temp).
  - rewrite PyFacts.append_assoc. reflexivity.
  - reflexivity.
Qed.

Lemma handle_signature_qualifies_witness :
  (exists signode',
     handle_signature (new_directive procedure) in_pkg1 "init" new_signode
     = Ok ("pkg1.init", signode'))
  /\ (exists signode',
        handle_signature (new_directive procedure) in_pkg1 "a.b.init" new_signode
        = Ok ("pkg1.init", signode'))
  /\ (exists signode',
        handle_signature (new_directive procedure) no_temp "a.b.init" new_signode
        = Ok ("a.b.init", signode')).
Proof.
  split; [|split].
  - destruct (handle_signature_qualifies (new_directive procedure) in_pkg1
                "init" new_signode None (Some "init") None None)
      as (n & signode' & Hn & Hh).
    + vm_compute. reflexivity.
    + intros _. exists "pkg1". reflexivity.
    + injection Hn as <-. exists signode'. exact Hh.
  - destruct (handle_signature_qualifies (new_directive procedure) in_pkg1
                "a.b.init" new_signode (Some "a.b.") (Some "init") None None)
      as (n & signode' & Hn & Hh).
    + vm_compute. reflexivity.
    + intros _. exists "pkg1". reflexivity.
    + injection Hn as <-. exists signode'. exact Hh.
  - destruct (handle_signature_qualifies (new_directive procedure) no_temp
                "a.b.init" new_signode (Some "a.b.") (Some "init") None None)
      as (n & signode' & Hn & Hh).
    + vm_compute. reflexivity.
    + intros H. vm_compute in H. discriminate H.
    + injection Hn as <-. exists signode'. exact Hh.
Defined.

Lemma blank_piece p :
  Py.has_char "," p = false -> blank p = Py.all_space p.
Proof.
  unfold blank. destruct p as [|c p]; [reflexivity|].
  intros Hc. cbn [Py.nonempty negb orb Py.isspace].
  destruct (String.eqb_spec (String c p) ",") as [Heq|Hne]; [|reflexivity].
  rewrite Heq in Hc. discriminate Hc.
Qed.

Lemma kept_pieces arglist :
  List.filter (fun t => negb (blank t)) (Py.split "," arglist)
  = List.filter (fun t => negb (Py.all_space t)) (Py.split "," arglist).
Proof.
  apply filter_ext_in. intros p Hp. f_equal. apply blank_piece.
  pose proof (PyFacts.split_no_sep "," arglist) as Hall.
  rewrite List.Forall_forall in Hall. apply Hall. exact Hp.
Qed.

(** How the argument group is split: at every comma, nested or not; the
    pieces that are empty or all whitespace are dropped, and the others, in
    their order and without the whitespace around them, become the
    parameters. *)
Theorem handle_signature_parameters self temp sig signode
    name_prefix name arglist retann fullname signode' :
  sig_groups sig = Some (name_prefix, name, Some arglist, retann) ->
  handle_signature self temp sig signode = Ok (fullname, signode') ->
  let pieces := Py.split "," arglist in
  let kept := List.filter (fun t => negb (Py.all_space t)) pieces in
  Py.join "," pieces = arglist
  /\ Forall (fun piece => Py.has_char "," piece = false) pieces
  /\ parameter_texts (sig_children signode')
     = (parameter_texts (sig_children signode) ++ (Py.strip <$> kept))%list
  /\ Forall (fun t =>
       exists l r, t = l ++ Py.strip t ++ r
                   /\ Py.all_space l = true /\ Py.all_space r = true
                   /\ Py.nonempty (Py.strip t) = true
                   /\ Py.starts_with_space (Py.strip t) = false
                   /\ Py.ends_with_space (Py.strip t) = false) kept.
Proof.
  intros Hm Hh pieces kept.
  split; [apply PyFacts.split_join|].
  split; [apply PyFacts.split_no_sep|].
  split.
  - pose proof (handle_signature_Ok_inv _ _ _ _ _ Hh) as Hpkg.
    destruct (sig_groups_name _ _ _ _ _ Hm) as (n & -> & _).
    rewrite (handle_signature_ok _ _ _ _ _ _ _ _ Hm Hpkg) in Hh.
    injection Hh as _ <-. cbn [sig_children].
    rewrite parameter_texts_app. f_equal.
    unfold signature_nodes, kept, pieces. rewrite <- kept_pieces.
    fold (parameters arglist).
    rewrite !parameter_texts_app.
    destruct arglist as [|c arglist'] eqn:Harg.
    + destruct (inside_package temp), (Py.truthy retann); reflexivity.
    + cbn [Py.truthy Py.nonempty default].
      rewrite parameter_texts_nodes.
      destruct (inside_package temp), (Py.truthy retann);
        cbn; rewrite ?app_nil_r; reflexivity.
  - apply List.Forall_forall. intros t Ht.
    apply filter_In in Ht as [Hin Hsp].
    apply PyFacts.strip_spec. rewrite blank_piece.
    + destruct (Py.all_space t); [discriminate|reflexivity].
    + pose proof (PyFacts.split_no_sep "," arglist) as Hall.
      rewrite List.Forall_forall in Hall. apply Hall. exact Hin.
Qed.

Lemma handle_signature_parameters_witness :
  exists signode',
    handle_signature (new_directive function) no_temp
      "pkg1.run( p1 in number ,, p2 out varchar2 , ) return boolean" new_signode
    = Ok ("pkg1.run", signode')
    /\ parameter_texts (sig_children signode')
       = ["p1 in number"; "p2 out varchar2"].
Proof.
  eexists. split; [vm_compute; reflexivity|].
  destruct (handle_signature_parameters (new_directive function) no_temp
              "pkg1.run( p1 in number ,, p2 out varchar2 , ) return boolean"
              new_signode (Some "pkg1.") (Some "run")
              " p1 in number ,, p2 out varchar2 , " (Some "boolean")
              "pkg1.run" _ ltac:(vm_compute; reflexivity) eq_refl)
    as (_ & _ & Hp & _).
  exact Hp.
Defined.


Lemma join_init_final sep (l : list string) :
  (1 < length l)%nat ->
  Py.join sep (Py.init l) ++ sep ++ Py.final l = Py.join sep l.
Proof.
  unfold Py.init, Py.final.
  induction l as [|p l IH]; cbn [length]; [lia|].
  destruct l as [|q l]; cbn [length]; [lia|]. intros _.
  destruct l as [|q' l].
  - reflexivity.
  - change (removelast (p :: q :: q' :: l)) with (p :: removelast (q :: q' :: l)).
    change (List.last (p :: q :: q' :: l) "") with (List.last (q :: q' :: l) "").
    assert (Hrl : exists x xs, removelast (q :: q' :: l) = x :: xs).
    { cbn [removelast]. eauto. }
    destruct Hrl as (x & xs & Hrl). rewrite Hrl in *.
    rewrite !PyFacts.join_cons_cons, PyFacts.append_assoc.
    rewrite PyFacts.append_assoc.
    rewrite IH by (cbn [length]; lia). reflexivity.
Qed.

(** C5: a type given as one text node is split at its spaces.  With no
    space in it the whole text is handed to [make_xref]; otherwise the text
    before the last space is put in as plain text, then a space as plain
    text, and only what follows the last space is handed to [make_xref]. *)
Theorem handle_item_splits_type make_xref self domain
    (types : gmap string (list node)) fieldarg content typename :
  types !! fieldarg = Some [Text typename] ->
  let tokens := Py.split " " typename in
  let xref := fun target =>
    make_xref (typerolename self) domain target default_innernode in
  let rendered :=
    if (length tokens =? 1)%nat then [xref typename]
    else [Text (Py.join " " (Py.init tokens)); Text " "; xref (Py.final tokens)] in
  handle_item make_xref self domain types fieldarg content
  = (paragraph
       ([make_xref (rolename self) domain fieldarg strong; Text " ("]
        ++ rendered ++ [Text ")"; Text " -- "] ++ content)%list,
     delete fieldarg types)
  /\ (length tokens = 1%nat <-> Py.has_char " " typename = false)
  /\ Forall (fun token => Py.has_char " " token = false) tokens
  /\ (if (length tokens =? 1)%nat then True
      else Py.join " " (Py.init tokens) ++ " " ++ Py.final tokens = typename).
Proof.
  intros Hty tokens xref rendered.
  split; [|split; [apply PyFacts.split_one_piece|split; [apply PyFacts.split_no_sep|]]].
  - unfold handle_item. rewrite Hty. unfold render_type, par_add.
    cbn [length Nat.eqb firstn forallb is_Text andb fmap list_fmap astext Py.join].
    fold tokens. unfold rendered, xref.
    destruct (length tokens =? 1)%nat; cbn [app]; rewrite <- ?app_assoc; reflexivity.
  - destruct (length tokens =? 1)%nat eqn:Hlen; [exact I|].
    rewrite join_init_final.
    + apply PyFacts.split_join.
    + apply Nat.eqb_neq in Hlen.
      pose proof (PyFacts.split_not_nil " " typename) as Hnil.
      fold tokens in Hnil. destruct tokens as [|t [|t' ts]]; cbn [length] in *;
        [congruence|lia|lia].
Qed.

Lemma handle_item_splits_type_witness :
  (handle_item sphinx_make_xref parameter_field "plsql" in_out_types
     "p_item" [Text "the item"]).1
  = paragraph
      [ strong "p_item" "p_item"; Text " (";
        Text "in out"; Text " ";
        pending_xref "plsql" "obj" "custom_type"
          [emphasis "custom_type" "custom_type"];
        Text ")"; Text " -- "; Text "the item" ]
  /\ (handle_item sphinx_make_xref parameter_field "plsql" number_types
        "p_count" [Text "how many"]).1
     = paragraph
         [ strong "p_count" "p_count"; Text " (";
           pending_xref "plsql" "obj" "number" [emphasis "number" "number"];
           Text ")"; Text " -- "; Text "how many" ].
Proof.
  split.
  - destruct (handle_item_splits_type sphinx_make_xref parameter_field "plsql"
                in_out_types "p_item" [Text "the item"] "in out custom_type")
      as (Hh & _).
    + vm_compute. reflexivity.
    + rewrite Hh. reflexivity.
  - destruct (handle_item_splits_type sphinx_make_xref parameter_field "plsql"
                number_types "p_count" [Text "how many"] "number")
      as (Hh & _).
    + vm_compute. reflexivity.
    + rewrite Hh. reflexivity.
Defined.


(** ** The matcher finds only what the pattern describes *)

Module ReSound.
Import Re ReSpec.

Lemma consumed_app pre rest : consumed (pre ++ rest) rest = pre.
Proof.
  unfold consumed. induction pre as [|c pre IH].
  - rewrite PyFacts.append_nil_l, Nat.sub_diag. destruct rest; reflexivity.
  - rewrite PyFacts.append_cons. cbn [String.length].
    assert (Hlen : (String.length rest <= String.length (pre ++ rest))%nat).
    { clear. induction pre as [|c pre IH]; [reflexivity|].
      rewrite PyFacts.append_cons. cbn [String.length]. lia. }
    rewrite Nat.sub_succ_l by exact Hlen. cbn [substring]. rewrite IH. reflexivity.
Qed.

Lemma star_sound {R} a s (k : string -> option R) res :
  star a s k = Some res ->
  exists pre rest, s = pre ++ rest /\ all_match a pre = true /\ k rest = Some res.
Proof.
  induction s as [|c s IH]; cbn [star]; intros H.
  - exists "", "". auto.
  - destruct (atom_matches a c) eqn:Hc.
    + destruct (star a s k) as [r|] eqn:Hs.
      * destruct (IH H) as (pre & rest & -> & Hall & Hk).
        exists (String c pre), rest. rewrite PyFacts.append_cons.
        cbn [all_match]. rewrite Hc, Hall. auto.
      * exists "", (String c s). auto.
    + exists "", (String c s). auto.
Qed.

Lemma run_sound {R} r :
  forall s g (k : string -> groups -> option R) res,
    run r s g k = Some res ->
    exists pre rest g',
      s = pre ++ rest /\ Matches r pre rest g g' /\ k rest g' = Some res.
Proof.
  induction r as [|a|a|a|r1 IH1 r2 IH2|r IH|m r IH|];
    intros s g k res H; cbn [run] in H.
  - exists "", s, g. split; [reflexivity|]. split; [constructor|assumption].
  - destruct s as [|c s]; [discriminate|].
    destruct (atom_matches a c) eqn:Hc; [|discriminate].
    exists (String c ""), s, g. split; [reflexivity|].
    split; [constructor; assumption|assumption].
  - apply star_sound in H as (pre & rest & -> & Hall & Hk).
    exists pre, rest, g. split; [reflexivity|].
    split; [constructor; assumption|assumption].
  - destruct s as [|c s]; [discriminate|].
    destruct (atom_matches a c) eqn:Hc; [|discriminate].
    apply star_sound in H as (pre & rest & -> & Hall & Hk).
    exists (String c pre), rest, g. split; [reflexivity|].
    split; [constructor; assumption|assumption].
  - apply IH1 in H as (p1 & rest1 & g1 & -> & Hm1 & H).
    apply IH2 in H as (p2 & rest & g2 & -> & Hm2 & H).
    exists (p1 ++ p2), rest, g2. split; [symmetry; apply PyFacts.append_assoc|].
    split; [econstructor; eassumption|assumption].
  - destruct (run r s g k) as [res'|] eqn:Hr.
    + apply IH in Hr as (pre & rest & g' & -> & Hm & Hk).
      exists pre, rest, g'. split; [reflexivity|].
      split; [constructor; assumption|congruence].
    + exists "", s, g. split; [reflexivity|].
      split; [apply M_Opt_none|assumption].
  - apply IH in H as (pre & rest & g' & -> & Hm & Hk).
    rewrite consumed_app in Hk.
    exists pre, rest, (set_group m pre g'). split; [reflexivity|].
    split; [constructor; assumption|assumption].
  - exists "", s, g. split; [reflexivity|]. split.
    + constructor. destruct s as [|c [|c' s]]; try discriminate; [auto|].
      destruct (Ascii.eqb_spec c Chars.newline) as [->|]; [auto|discriminate].
    + destruct s as [|c [|c' s]]; try discriminate; [assumption|].
      destruct (Ascii.eqb c Chars.newline); [assumption|discriminate].
Qed.

End ReSound.

(** ** The shape of a signature the pattern matches *)

Module SigShape.
Import Re ReSpec.

Ltac invert_matches :=
  repeat match goal with
         | H : Matches ?r _ _ _ _ |- _ =>
             first [ is_var r; fail 1 | inversion H; subst; clear H ]
         end.

Ltac by_cases_on_char c :=
  destruct c as [[] [] [] [] [] [] [] []]; vm_compute; intros H;
  first [discriminate H | reflexivity].

Lemma lit_dollar c : atom_matches (Lit "$") c = true -> c = "$"%char.
Proof. by_cases_on_char c. Qed.

Lemma lit_open c : atom_matches (Lit "(") c = true -> c = "("%char.
Proof. by_cases_on_char c. Qed.

Lemma lit_close c : atom_matches (Lit ")") c = true -> c = ")"%char.
Proof. by_cases_on_char c. Qed.

Lemma lit_dot c : atom_matches (Lit ".") c = true -> c = "."%char.
Proof. by_cases_on_char c. Qed.

Lemma lit_lower l c :
  atom_matches (Lit l) c = true -> Chars.lower c = Chars.lower l.
Proof.
  cbn [atom_matches]. unfold Chars.eqb_nocase. intros H.
  apply Ascii.eqb_eq in H. congruence.
Qed.

Lemma all_match_space s : all_match Space s = Py.all_space s.
Proof. induction s as [|c s IH]; [reflexivity|]. cbn. rewrite IH. reflexivity. Qed.

Ltac exact_literals :=
  repeat match goal with
         | H : atom_matches (Lit "$") _ = true |- _ => apply lit_dollar in H; subst
         | H : atom_matches (Lit "(") _ = true |- _ => apply lit_open in H; subst
         | H : atom_matches (Lit ")") _ = true |- _ => apply lit_close in H; subst
         | H : atom_matches (Lit ".") _ = true |- _ => apply lit_dot in H; subst
         end.

Lemma prefix_shape pre rest g g' :
  Matches sig_re_prefix pre rest g g' ->
  (pre = "" /\ g' = g)
  \/ (exists body, pre = body ++ "." /\ all_match WordOrDot body = true
                   /\ g' = set_group 0 pre g).
Proof.
  unfold sig_re_prefix. intros H. invert_matches; exact_literals.
  - right. eauto.
  - left. auto.
Qed.

Lemma name_shape pre rest g g' :
  Matches sig_re_name pre rest g g' ->
  g' = set_group 1 pre g
  /\ exists w, (pre = w \/ pre = "$" ++ w)
               /\ Py.nonempty w = true /\ all_match Word w = true.
Proof.
  unfold sig_re_name. intros H. invert_matches; exact_literals.
  - split; [reflexivity|]. eexists (String _ _).
    split; [right; reflexivity|]. split; [reflexivity|].
    cbn [all_match]. apply andb_true_intro. auto.
  - split; [reflexivity|]. eexists (String _ _).
    split; [left; reflexivity|]. split; [reflexivity|].
    cbn [all_match]. apply andb_true_intro. auto.
Qed.

Lemma args_shape pre rest g g' :
  Matches sig_re_args pre rest g g' ->
  (pre = "" /\ g' = g)
  \/ (exists a, pre = "(" ++ a ++ ")" /\ all_match AnyChar a = true
                /\ g' = set_group 2 a g).
Proof.
  unfold sig_re_args. cbn [seqs]. intros H. invert_matches; exact_literals.
  - right. eexists. rewrite PyFacts.append_nil_r. eauto.
  - left. auto.
Qed.

Lemma return_shape pre rest g g' :
  Matches sig_re_return pre rest g g' ->
  (pre = "" /\ g' = g)
  \/ (exists ws2 kw ws3 r,
        pre = ws2 ++ kw ++ ws3 ++ r
        /\ Py.all_space ws2 = true /\ lower_string kw = "return"
        /\ Py.all_space ws3 = true /\ all_match AnyChar r = true
        /\ g' = set_group 3 r g).
Proof.
  unfold sig_re_return. cbn [seqs lits]. intros H. invert_matches.
  - right.
    repeat match goal with
           | H : atom_matches (Lit _) _ = true |- _ => apply lit_lower in H
           end.
    rewrite !PyFacts.append_nil_r.
    do 4 eexists. split; [reflexivity|].
    rewrite <- !all_match_space.
    split; [assumption|]. split.
    { cbv [lower_string String.append].
      repeat match goal with
             | H : Chars.lower _ = _ |- _ => rewrite H; clear H
             end.
      reflexivity. }
    auto.
  - left. auto.
Qed.

Ltac invert_seq :=
  repeat match goal with
         | H : Matches (Seq _ _) _ _ _ _ |- _ => inversion H; subst; clear H
         | H : Matches (Opt (Seq _ _)) _ _ _ _ |- _ => inversion H; subst; clear H
         | H : Matches (Star _) _ _ _ _ |- _ => inversion H; subst; clear H
         | H : Matches Eps _ _ _ _ |- _ => inversion H; subst; clear H
         | H : Matches Eos _ _ _ _ |- _ => inversion H; subst; clear H
         end.

Lemma plsql_sig_re_parts :
  plsql_sig_re
  = Seq sig_re_prefix
      (Seq sig_re_name
         (Seq (Star Space)
            (Seq (Opt (Seq sig_re_args (Seq sig_re_return Eps)))
               (Seq Eos Eps)))).
Proof. reflexivity. Qed.

(** A matched signature, taken apart: the groups, the whitespace and the
    keyword between them, and the classes of their characters. *)
Lemma sig_groups_shape sig p n a r :
  sig_groups sig = Some (p, n, a, r) ->
  exists name w ws1 ws2 kw ws3 nl,
    n = Some name
    /\ sig = default "" p ++ name ++ ws1 ++ args_text a
              ++ ws2 ++ kw ++ ws3 ++ default "" r ++ nl
    /\ match p with
       | Some x => exists body, x = body ++ "." /\ all_match WordOrDot body = true
       | None => True
       end
    /\ (name = w \/ name = "$" ++ w)
    /\ Py.nonempty w = true /\ all_match Word w = true
    /\ Py.all_space ws1 = true
    /\ all_match AnyChar (default "" a) = true
    /\ match r with
       | Some rt => Py.all_space ws2 = true /\ lower_string kw = "return"
                    /\ Py.all_space ws3 = true /\ all_match AnyChar rt = true
       | None => ws2 = "" /\ kw = "" /\ ws3 = ""
       end
    /\ (nl = "" \/ nl = String Chars.newline "").
Proof.
  unfold sig_groups, rmatch.
  destruct (run plsql_sig_re sig (replicate 4 None) (fun _ g => Some g))
    as [res|] eqn:Hrun; [|discriminate].
  apply ReSound.run_sound in Hrun as (pre & rest & g' & -> & Hm & Hk).
  injection Hk as <-. rewrite plsql_sig_re_parts in Hm.
  invert_seq;
    repeat match goal with
           | H : Matches sig_re_prefix _ _ _ _ |- _ =>
               apply prefix_shape in H as [[-> ->]|(body & -> & Hbody & ->)]
           | H : Matches sig_re_name ?pn _ _ _ |- _ =>
               apply name_shape in H as (-> & w & Hname & Hw & Hword)
           | H : Matches sig_re_args _ _ _ _ |- _ =>
               apply args_shape in H as [[-> ->]|(a0 & -> & Ha & ->)]
           | H : Matches sig_re_return _ _ _ _ |- _ =>
               apply return_shape in H
                 as [[-> ->]|(ws2 & kw & ws3 & r0 & -> & Hws2 & Hkw & Hws3 & Hr & ->)]
           end;
    match goal with
    | H : all_match Space ?x = true |- _ => rename x into ws1; rename H into Hws1
    end;
    match goal with
    | H : _ \/ _ |- _ => rename H into Hnl
    end;
    rewrite all_match_space in Hws1;
    intros Hg; cbn in Hg; injection Hg as <- <- <- <-;
    eexists; exists w, ws1;
    first [ exists ws2, kw, ws3 | exists "", "", "" ];
    exists rest;
    (split; [reflexivity|]);
    (split;
     [ cbv [from_option id args_text];
       repeat first [ rewrite PyFacts.append_assoc
                    | rewrite PyFacts.append_nil_r
                    | rewrite PyFacts.append_nil_l
                    | rewrite PyFacts.append_cons ];
       reflexivity |]);
    cbv [from_option id];
    rewrite ?all_match_space in *;
    repeat split; eauto.
Qed.

End SigShape.

(** ** Further properties of the signature pattern *)

(** X1: a signature the pattern matches is its groups put back together:
    the prefix, the name, whitespace, the argument list in its
    parentheses, the keyword [return] in any case with whitespace around
    it, the return annotation, and at most a final newline. *)
Theorem signature_reassembles sig p n a r :
  sig_groups sig = Some (p, n, a, r) ->
  exists name ws1 ws2 kw ws3 nl,
    n = Some name
    /\ sig = default "" p ++ name ++ ws1 ++ args_text a
             ++ ws2 ++ kw ++ ws3 ++ default "" r ++ nl
    /\ Py.all_space ws1 = true
    /\ match r with
       | Some _ => Py.all_space ws2 = true /\ lower_string kw = "return"
                   /\ Py.all_space ws3 = true
       | None => ws2 = "" /\ kw = "" /\ ws3 = ""
       end
    /\ (nl = "" \/ nl = String Chars.newline "").
Proof.
  intros H. apply SigShape.sig_groups_shape in H
    as (name & w & ws1 & ws2 & kw & ws3 & nl & Hn & Hsig & _ & _ & _ & _
        & Hws1 & _ & Hr & Hnl).
  exists name, ws1, ws2, kw, ws3, nl. repeat (split; [assumption|]).
  split; [|assumption]. destruct r; tauto.
Qed.

Lemma signature_reassembles_witness :
  exists name ws1 ws2 kw ws3 nl,
    Some "run" = Some name
    /\ "pkg1.run (p1 in number)  Return boolean"
       = default "" (Some "pkg1.") ++ name ++ ws1 ++ args_text (Some "p1 in number")
         ++ ws2 ++ kw ++ ws3 ++ default "" (Some "boolean") ++ nl
    /\ Py.all_space ws1 = true
    /\ (Py.all_space ws2 = true /\ lower_string kw = "return"
        /\ Py.all_space ws3 = true)
    /\ (nl = "" \/ nl = String Chars.newline "").
Proof.
  apply (signature_reassembles "pkg1.run (p1 in number)  Return boolean"
           (Some "pkg1.") (Some "run") (Some "p1 in number") (Some "boolean")).
  vm_compute. reflexivity.
Defined.

(** X2: the groups of a matched signature: a prefix ends with a dot and
    has only word characters and dots before it; the name is there, with
    one or more word characters after an optional dollar sign; neither the
    argument list nor the return annotation holds a newline. *)
Theorem signature_group_classes sig p n a r :
  sig_groups sig = Some (p, n, a, r) ->
  match p with
  | Some x => exists body,
      x = body ++ "." /\ ReSpec.all_match Re.WordOrDot body = true
  | None => True
  end
  /\ (exists name w,
        n = Some name /\ (name = w \/ name = "$" ++ w)
        /\ Py.nonempty w = true /\ ReSpec.all_match Re.Word w = true)
  /\ ReSpec.all_match Re.AnyChar (default "" a) = true
  /\ ReSpec.all_match Re.AnyChar (default "" r) = true.
Proof.
  intros H. apply SigShape.sig_groups_shape in H
    as (name & w & ws1 & ws2 & kw & ws3 & nl & Hn & Hsig & Hp & Hname & Hw
        & Hword & Hws1 & Ha & Hr & Hnl).
  split; [assumption|]. split; [eauto 10|]. split; [assumption|].
  destruct r; [tauto|reflexivity].
Qed.

Lemma signature_group_classes_witness :
  (exists body, "a.b." = body ++ "." /\ ReSpec.all_match Re.WordOrDot body = true)
  /\ (exists name w,
        Some "$init" = Some name /\ (name = w \/ name = "$" ++ w)
        /\ Py.nonempty w = true /\ ReSpec.all_match Re.Word w = true)
  /\ ReSpec.all_match Re.AnyChar (default "" (Some "x, y")) = true
  /\ ReSpec.all_match Re.AnyChar (default "" None) = true.
Proof.
  apply (signature_group_classes "a.b.$init(x, y)"
           (Some "a.b.") (Some "$init") (Some "x, y") None).
  vm_compute. reflexivity.
Defined.

Lemma all_chars_app f s t :
  all_chars f (s ++ t) = all_chars f s && all_chars f t.
Proof.
  induction s as [|c s IH]; [reflexivity|].
  rewrite PyFacts.append_cons. cbn [all_chars]. rewrite IH. apply andb_assoc.
Qed.

Lemma all_match_name_chars a s :
  (forall c, Re.atom_matches a c = true -> name_char c = true) ->
  ReSpec.all_match a s = true -> all_chars name_char s = true.
Proof.
  intros Ha. induction s as [|c s IH]; [reflexivity|].
  cbn [ReSpec.all_match all_chars]. intros [Hc Hs]%andb_prop.
  rewrite (Ha c Hc), (IH Hs). reflexivity.
Qed.

Lemma word_or_dot_name_char c :
  Re.atom_matches Re.WordOrDot c = true -> name_char c = true.
Proof.
  unfold name_char. cbn [Re.atom_matches]. intros ->. reflexivity.
Qed.

Lemma word_name_char c :
  Re.atom_matches Re.Word c = true -> name_char c = true.
Proof.
  unfold name_char. cbn [Re.atom_matches]. intros ->. reflexivity.
Qed.

(** The name a matched signature yields outside a package: a prefix of the
    signature, made of name characters. *)
Lemma sig_groups_own_name sig p n a r :
  sig_groups sig = Some (p, n, a, r) ->
  exists name rest,
    n = Some name
    /\ sig = (default "" p ++ name) ++ rest
    /\ all_chars name_char (default "" p ++ name) = true
    /\ Py.nonempty name = true.
Proof.
  intros H. apply SigShape.sig_groups_shape in H
    as (name & w & ws1 & ws2 & kw & ws3 & nl & Hn & Hsig & Hp & Hname & Hw
        & Hword & _).
  exists name. eexists. split; [assumption|].
  split; [rewrite PyFacts.append_assoc; exact Hsig|].
  assert (Hw' : all_chars name_char w = true)
    by (apply (all_match_name_chars Re.Word); [apply word_name_char|assumption]).
  assert (Hnm : all_chars name_char name = true /\ Py.nonempty name = true).
  { destruct Hname as [->| ->]; [auto|].
    rewrite PyFacts.append_cons, PyFacts.append_nil_l. cbn [all_chars Py.nonempty].
    rewrite Hw'. auto. }
  destruct Hnm as [Hnm Hne]. split; [|assumption].
  rewrite all_chars_app, Hnm, andb_true_r.
  destruct p as [x|]; [|reflexivity].
  destruct Hp as (body & -> & Hbody). cbn [default from_option id].
  rewrite all_chars_app.
  rewrite (all_match_name_chars Re.WordOrDot body word_or_dot_name_char Hbody).
  reflexivity.
Qed.

(** X3: a signature has to begin with a word character, a dot or a dollar
    sign.  On any other first character, leading whitespace included,
    [handle_signature] raises [ValueError]. *)
Theorem handle_signature_first_character self temp c s signode :
  name_char c = false ->
  handle_signature self temp (String c s) signode = Raise ValueError.
Proof.
  intros Hc. unfold handle_signature.
  destruct (sig_groups (String c s)) as [[[[p n] a] r]|] eqn:Hm; [|reflexivity].
  exfalso. apply sig_groups_own_name in Hm as (name & rest & _ & Hsig & Hall & Hne).
  destruct (default "" p ++ name) as [|c' t] eqn:Hq.
  - destruct (default "" p); [|discriminate Hq].
    rewrite PyFacts.append_nil_l in Hq. subst name. discriminate Hne.
  - rewrite PyFacts.append_cons in Hsig. injection Hsig as -> _.
    cbn [all_chars] in Hall. rewrite Hc in Hall. discriminate Hall.
Qed.

Lemma handle_signature_first_character_witness :
  handle_signature (new_directive procedure) no_temp " init" new_signode
  = Raise ValueError.
Proof.
  apply (handle_signature_first_character (new_directive procedure) no_temp
           " "%char "init" new_signode).
  vm_compute. reflexivity.
Defined.

(** X4: outside a package the name [handle_signature] returns is the
    beginning of the signature itself, and it is made of word characters,
    dots and dollar signs only. *)
Theorem handle_signature_name_is_prefix self temp sig signode fullname signode' :
  inside_package temp = false ->
  handle_signature self temp sig signode = Ok (fullname, signode') ->
  (exists rest, sig = fullname ++ rest)
  /\ all_chars name_char fullname = true
  /\ Py.nonempty fullname = true.
Proof.
  intros Hout Hh.
  destruct (sig_groups sig) as [[[[p n] a] r]|] eqn:Hm.
  - destruct (sig_groups_own_name _ _ _ _ _ Hm)
      as (name & rest & -> & Hsig & Hall & Hne).
    rewrite (handle_signature_ok _ _ _ _ _ _ _ _ Hm) in Hh
      by (rewrite Hout; discriminate).
    unfold effective_prefix in Hh. rewrite Hout in Hh.
    injection Hh as <- _. split; [eauto|]. split; [assumption|].
    destruct (default "" p); [assumption|reflexivity].
  - unfold handle_signature in Hh. rewrite Hm in Hh. discriminate Hh.
Qed.

Lemma handle_signature_name_is_prefix_witness :
  (exists rest, "a.b.init(x) return number" = "a.b.init" ++ rest)
  /\ all_chars name_char "a.b.init" = true
  /\ Py.nonempty "a.b.init" = true.
Proof.
  apply (handle_signature_name_is_prefix (new_directive function) no_temp
           "a.b.init(x) return number" new_signode "a.b.init"
           (match handle_signature (new_directive function) no_temp
                    "a.b.init(x) return number" new_signode with
            | Ok (_, signode') => signode'
            | Raise _ => new_signode
            end)).
  - reflexivity.
  - vm_compute. reflexivity.
Defined.

(** X5: the exceptions of [handle_signature].  It raises [ValueError]
    exactly when the pattern does not match, a [KeyError] exactly when the
    pattern matches inside a package whose name was never recorded, and
    never a [TypeError]: the name group always takes part. *)
Theorem handle_signature_exceptions self temp sig signode :
  (handle_signature self temp sig signode = Raise ValueError
   <-> sig_groups sig = None)
  /\ ((exists key, handle_signature self temp sig signode = Raise (KeyError key))
      <-> (is_Some (sig_groups sig) /\ inside_package temp = true
           /\ current_package temp = None))
  /\ handle_signature self temp sig signode <> Raise TypeError.
Proof.
  destruct (sig_groups sig) as [[[[p n] a] r]|] eqn:Hm.
  - destruct (sig_groups_name _ _ _ _ _ Hm) as (name & -> & _).
    destruct (inside_package temp) eqn:Hin.
    + destruct (current_package temp) as [pkg|] eqn:Hcur.
      * rewrite (handle_signature_ok _ _ _ _ _ _ _ _ Hm)
          by (rewrite Hcur; eauto).
        split; [split; discriminate|]. split; [|discriminate].
        split; [intros [k Hk]; discriminate Hk|intros (_ & _ & Hc); discriminate Hc].
      * assert (Hh : handle_signature self temp sig signode
                     = Raise (KeyError "plsql:current_package")).
        { unfold handle_signature. rewrite Hm, Hin, Hcur. reflexivity. }
        rewrite Hh. split; [split; discriminate|]. split; [|discriminate].
        split; [eauto|eauto].
    + rewrite (handle_signature_ok _ _ _ _ _ _ _ _ Hm)
        by (rewrite Hin; discriminate).
      split; [split; discriminate|]. split; [|discriminate].
      split; [intros [k Hk]; discriminate Hk|intros (_ & Hc & _); discriminate Hc].
  - assert (Hh : handle_signature self temp sig signode = Raise ValueError).
    { unfold handle_signature. rewrite Hm. reflexivity. }
    rewrite Hh. split; [tauto|]. split; [|discriminate].
    split; [intros [k Hk]; discriminate Hk|intros ([x Hx] & _); discriminate Hx].
Qed.

(** ** Signatures the pattern accepts *)

Module SigAccept.
Import Re ReSpec.

Lemma word_not_dot c : Chars.is_word c = true -> atom_matches (Lit ".") c = false.
Proof.
  destruct c as [[] [] [] [] [] [] [] []]; vm_compute; intros H;
    first [discriminate H | reflexivity].
Qed.

Lemma word_not_dollar c : Chars.is_word c = true -> atom_matches (Lit "$") c = false.
Proof.
  destruct c as [[] [] [] [] [] [] [] []]; vm_compute; intros H;
    first [discriminate H | reflexivity].
Qed.

Lemma star_takes_all {R} a s (k : string -> option R) res :
  all_match a s = true -> k "" = Some res -> star a s k = Some res.
Proof.
  intros Hall Hk. induction s as [|c s IH]; [exact Hk|].
  cbn [all_match] in Hall. apply andb_prop in Hall as [Hc Hs].
  cbn [star]. rewrite Hc, (IH Hs). reflexivity.
Qed.

(** Over word characters alone the prefix group finds no dot to end on. *)
Lemma no_prefix_in_word {R} s g (k : string -> groups -> option R) :
  all_match Word s = true ->
  star WordOrDot s (fun rest => run (One (Lit ".")) rest g k) = None.
Proof.
  induction s as [|c s IH]; [reflexivity|].
  cbn [all_match atom_matches]. intros [Hc Hs]%andb_prop.
  cbn [star atom_matches]. rewrite Hc, (IH Hs). cbn [orb run].
  rewrite (word_not_dot c Hc). reflexivity.
Qed.

Lemma consumed_all s : consumed s "" = s.
Proof.
  rewrite <- (PyFacts.append_nil_r s) at 1. apply ReSound.consumed_app.
Qed.

Lemma run_Opt {R} r s g (k : string -> groups -> option R) :
  run (Opt r) s g k
  = match run r s g k with
    | Some res => Some res
    | None => k s g
    end.
Proof. reflexivity. Qed.

Lemma run_Star {R} a s g (k : string -> groups -> option R) :
  run (Star a) s g k = star a s (fun rest => k rest g).
Proof. reflexivity. Qed.

Lemma run_One_cons {R} a c s g (k : string -> groups -> option R) :
  run (One a) (String c s) g k = if atom_matches a c then k s g else None.
Proof. reflexivity. Qed.

Lemma run_Plus_cons {R} a c s g (k : string -> groups -> option R) :
  run (Plus a) (String c s) g k
  = if atom_matches a c then star a s (fun rest => k rest g) else None.
Proof. reflexivity. Qed.

Lemma sig_groups_identifier ident :
  Py.nonempty ident = true ->
  all_match Word ident = true ->
  sig_groups ident = Some (None, Some ident, None, None).
Proof.
  intros Hne Hword. unfold sig_groups, rmatch.
  rewrite SigShape.plsql_sig_re_parts. rewrite ReFacts.run_Seq.
  unfold sig_re_prefix at 1.
  rewrite run_Opt, ReFacts.run_Group, ReFacts.run_Seq, run_Star.
  rewrite (no_prefix_in_word ident _ _ Hword).
  rewrite ReFacts.run_Seq. unfold sig_re_name.
  rewrite ReFacts.run_Group, ReFacts.run_Seq, run_Opt.
  destruct ident as [|c w]; [discriminate Hne|].
  cbn [all_match atom_matches] in Hword. apply andb_prop in Hword as [Hc Hw].
  rewrite run_One_cons, (word_not_dollar c Hc), run_Plus_cons.
  cbn [atom_matches]. rewrite Hc.
  rewrite (star_takes_all Word w _ [None; Some (String c w); None; None]).
  - reflexivity.
  - exact Hw.
  - rewrite consumed_all. reflexivity.
Qed.

End SigAccept.

(** X6: a bare identifier, one or more word characters, always matches
    the pattern, as a name with no other group, so that [handle_signature]
    never raises [ValueError] on it.  Outside a package it returns the
    identifier unchanged and appends the kind, an annotation with the empty
    prefix, and the name; inside a package whose name is recorded it
    returns the package, a dot and the identifier, and appends the kind and
    the name only; inside a package whose name was never recorded it
    raises [KeyError]. *)
Theorem handle_signature_identifier self temp ident signode :
  Py.nonempty ident = true ->
  ReSpec.all_match Re.Word ident = true ->
  let kind := objtype_name (self_objtype self) ++ " " in
  handle_signature self temp ident signode
  = if inside_package temp then
      match current_package temp with
      | Some pkg =>
          Ok (pkg ++ "." ++ ident,
              {| sig_children :=
                   (sig_children signode
                    ++ [desc_annotation kind kind; desc_name ident ident])%list;
                 sig_names := sig_names signode;
                 sig_ids := sig_ids signode;
                 sig_first := sig_first signode |})
      | None => Raise (KeyError "plsql:current_package")
      end
    else
      Ok (ident,
          {| sig_children :=
               (sig_children signode
                ++ [desc_annotation kind kind; desc_annotation "" "";
                    desc_name ident ident])%list;
             sig_names := sig_names signode;
             sig_ids := sig_ids signode;
             sig_first := sig_first signode |}).
Proof.
  intros Hne Hword kind.
  pose proof (SigAccept.sig_groups_identifier ident Hne Hword) as Hm.
  destruct (inside_package temp) eqn:Hin.
  - destruct (current_package temp) as [pkg|] eqn:Hcur.
    + rewrite (handle_signature_ok self temp ident signode None ident None None Hm)
        by (rewrite Hcur; eauto).
      unfold effective_prefix, signature_nodes, effective_prefix.
      rewrite Hin, Hcur. cbn [Py.truthy default from_option id].
      rewrite !app_nil_r, PyFacts.append_assoc. reflexivity.
    + unfold handle_signature. rewrite Hm, Hin, Hcur. reflexivity.
  - rewrite (handle_signature_ok self temp ident signode None ident None None Hm)
      by (rewrite Hin; discriminate).
    unfold effective_prefix, signature_nodes, effective_prefix.
    rewrite Hin. cbn [Py.truthy default from_option id].
    rewrite !app_nil_r. reflexivity.
Qed.

Lemma handle_signature_identifier_witness :
  handle_signature (new_directive table) no_temp "orders_2024" new_signode
  = Ok ("orders_2024",
        {| sig_children := [desc_annotation "table " "table ";
                            desc_annotation "" "";
                            desc_name "orders_2024" "orders_2024"];
           sig_names := []; sig_ids := []; sig_first := false |})
  /\ handle_signature (new_directive table)
       (before_content (new_directive package) no_temp) "orders_2024" new_signode
     = Raise (KeyError "plsql:current_package").
Proof.
  split.
  - apply (handle_signature_identifier (new_directive table) no_temp
             "orders_2024" new_signode).
    + reflexivity.
    + vm_compute. reflexivity.
  - apply (handle_signature_identifier (new_directive table)
             (before_content (new_directive package) no_temp)
             "orders_2024" new_signode).
    + reflexivity.
    + vm_compute. reflexivity.
Defined.

(** X7: a package directive whose own signature did not parse has no
    names; [before_content] then marks the package as entered without
    recording a name.  If none was recorded before, every signature that
    parses inside it makes [handle_signature] raise [KeyError]. *)
Theorem handle_signature_in_nameless_package pkg self temp sig signode :
  names pkg = [] ->
  current_package temp = None ->
  is_Some (sig_groups sig) ->
  handle_signature self (before_content pkg temp) sig signode
  = Raise (KeyError "plsql:current_package").
Proof.
  intros Hnames Hcur [[[[p n] a] r] Hm].
  unfold handle_signature, before_content. rewrite Hm, Hnames.
  cbn [inside_package in_package current_package]. rewrite Hcur. reflexivity.
Qed.

Lemma handle_signature_in_nameless_package_witness :
  handle_signature (new_directive procedure)
    (before_content (new_directive package) no_temp) "init" new_signode
  = Raise (KeyError "plsql:current_package").
Proof.
  apply (handle_signature_in_nameless_package (new_directive package)
           (new_directive procedure) no_temp "init" new_signode).
  - reflexivity.
  - reflexivity.
  - eexists. vm_compute. reflexivity.
Defined.

(** X8: the same nameless package after an earlier one: the name of the
    earlier package is still recorded, and the members are qualified with
    it. *)
Theorem handle_signature_in_stale_package pkg self temp sig signode
    old name_prefix name arglist retann :
  names pkg = [] ->
  current_package temp = Some old ->
  sig_groups sig = Some (name_prefix, name, arglist, retann) ->
  exists signode',
    handle_signature self (before_content pkg temp) sig signode
    = Ok (old ++ "." ++ default "" name, signode').
Proof.
  intros Hnames Hcur Hm.
  destruct (sig_groups_name _ _ _ _ _ Hm) as (n & -> & _).
  eexists. rewrite (handle_signature_ok _ _ _ _ _ _ _ _ Hm).
  - unfold effective_prefix, before_content. rewrite Hnames.
    cbn [inside_package in_package current_package]. rewrite Hcur.
    cbn [default from_option id]. rewrite PyFacts.append_assoc. reflexivity.
  - intros _. unfold before_content. rewrite Hnames.
    cbn [current_package]. rewrite Hcur. eauto.
Qed.

Lemma handle_signature_in_stale_package_witness :
  exists signode',
    handle_signature (new_directive procedure)
      (before_content (new_directive package) (after_content (new_directive package) in_pkg1))
      "init" new_signode
    = Ok ("pkg1.init", signode').
Proof.
  apply (handle_signature_in_stale_package (new_directive package)
           (new_directive procedure)
           (after_content (new_directive package) in_pkg1)
           "init" new_signode "pkg1" None (Some "init") None None).
  - reflexivity.
  - reflexivity.
  - vm_compute. reflexivity.
Defined.

(** X9: [after_content] leaves every package at once.  Whatever was
    entered before, one package or one inside another, a signature that
    follows is qualified by its own prefix alone, while the name of the
    package last recorded stays in the environment. *)
Theorem handle_signature_after_package pkg self temp sig signode
    name_prefix name arglist retann :
  sig_groups sig = Some (name_prefix, name, arglist, retann) ->
  current_package (after_content pkg temp) = current_package temp
  /\ exists signode',
       handle_signature self (after_content pkg temp) sig signode
       = Ok (default "" name_prefix ++ default "" name, signode').
Proof.
  intros Hm. split; [reflexivity|].
  destruct (sig_groups_name _ _ _ _ _ Hm) as (n & -> & _).
  eexists. rewrite (handle_signature_ok _ _ _ _ _ _ _ _ Hm).
  - reflexivity.
  - intros H. discriminate H.
Qed.

Lemma handle_signature_after_package_witness :
  let pkg2 := {| self_objtype := package; lineno := 2; names := ["pkg2"];
                 indexnode_entries := [] |} in
  current_package (after_content pkg2 (before_content pkg2 in_pkg1))
  = Some "pkg2"
  /\ exists signode',
       handle_signature (new_directive procedure)
         (after_content pkg2 (before_content pkg2 in_pkg1))
         "init" new_signode
       = Ok ("init", signode').
Proof.
  intros pkg2.
  apply (handle_signature_after_package pkg2 (new_directive procedure)
           (before_content pkg2 in_pkg1)
           "init" new_signode None (Some "init") None None).
  vm_compute. reflexivity.
Defined.

(** ** Further properties of the index *)

Lemma index_text_nonempty self name :
  Py.nonempty (get_index_text self name) = true.
Proof. unfold get_index_text. destruct name; reflexivity. Qed.

(** X10: every call of [add_target_and_index] appends one entry to the
    index node of the directive, the name followed by the kind in
    parentheses, also when the name is a known id and nothing is inserted. *)
Theorem add_target_and_index_entry doc2path self name sig signode w :
  (add_target_and_index doc2path self name sig signode w).1.1
  = {| self_objtype := self_objtype self;
       lineno := lineno self;
       names := names self;
       indexnode_entries :=
         (indexnode_entries self
          ++ [("single",
               (name ++ " (PL/SQL " ++ objtype_name (self_objtype self) ++ ")")%string,
               name, "")])%list |}.
Proof.
  unfold add_target_and_index.
  destruct (decide (name ∈ document_ids w));
    cbn [fst]; rewrite index_text_nonempty; reflexivity.
Qed.

(** X11: after [add_target_and_index] the name is a key of the ids of the
    document, so that a second call for the same name in the same document
    changes neither index, ids nor warnings, whatever the directive. *)
Theorem add_target_and_index_twice doc2path self1 self2 name sig1 sig2
    signode1 signode2 w :
  let w1 := (add_target_and_index doc2path self1 name sig1 signode1 w).2 in
  name ∈ document_ids w1
  /\ (add_target_and_index doc2path self2 name sig2 signode2 w1).2 = w1.
Proof.
  cbn zeta.
  assert (Hin : name ∈ document_ids
                  (add_target_and_index doc2path self1 name sig1 signode1 w).2).
  { destruct (decide (name ∈ document_ids w)) as [Hw|Hw].
    - rewrite add_world_skip by assumption. assumption.
    - rewrite add_world_insert by assumption. cbn. set_solver. }
  split; [exact Hin|]. apply add_world_skip. exact Hin.
Qed.

(** X12: what [add_target_and_index] leaves alone: the entries of all
    other names, the name of the document, the warnings given so far and
    the ids already known. *)
Theorem add_target_and_index_frame doc2path self name sig signode w :
  let w' := (add_target_and_index doc2path self name sig signode w).2 in
  delete name (objects w') = delete name (objects w)
  /\ docname w' = docname w
  /\ reported w `prefix_of` reported w'
  /\ document_ids w ⊆ document_ids w'.
Proof.
  cbn zeta. destruct (decide (name ∈ document_ids w)) as [Hw|Hw].
  - rewrite add_world_skip by assumption. repeat split; reflexivity.
  - rewrite add_world_insert by assumption. cbn.
    split; [apply delete_insert_eq|]. split; [reflexivity|]. split.
    + destruct (objects w !! name); [apply prefix_app_r|]; reflexivity.
    + set_solver.
Qed.

Section PassFacts.
Variable doc2path : string -> string.

Lemma insert_all_docname decls : forall w,
  docname (insert_all doc2path decls w) = docname w.
Proof.
  induction decls as [|decl decls IH]; intros w; [reflexivity|].
  rewrite insert_all_cons, IH. apply insert_step_docname.
Qed.

Lemma insert_step_objects w decl :
  objects (insert_step doc2path w decl) = objects w
  \/ objects (insert_step doc2path w decl)
     = <[decl.1.1.2 := (docname w, self_objtype decl.1.1.1)]> (objects w).
Proof.
  destruct decl as [[[self name] sig] signode]. unfold insert_step.
  destruct (decide (name ∈ document_ids w)).
  - left. rewrite add_world_skip by assumption. reflexivity.
  - right. rewrite add_world_insert by assumption. reflexivity.
Qed.

(** What is in the index after a document was indexed was there before,
    or belongs to the document. *)
Lemma insert_all_lookup decls : forall w k v,
  objects (insert_all doc2path decls w) !! k = Some v ->
  objects w !! k = Some v \/ v.1 = docname w.
Proof.
  induction decls as [|decl decls IH]; intros w k v Hk; [left; exact Hk|].
  rewrite insert_all_cons in Hk. apply IH in Hk as [Hk|Hk].
  - destruct (insert_step_objects w decl) as [Ho|Ho]; rewrite Ho in Hk.
    + left. exact Hk.
    + apply lookup_insert_Some in Hk as [[_ <-]|[_ Hk]]; [right|left]; auto.
  - right. rewrite Hk. apply insert_step_docname.
Qed.

(** A name the document does not declare keeps its entry. *)
Lemma insert_all_lookup_other decls : forall w k,
  k ∉ declared_names decls ->
  objects (insert_all doc2path decls w) !! k = objects w !! k.
Proof.
  induction decls as [|decl decls IH]; intros w k Hk; [reflexivity|].
  cbn [declared_names fmap list_fmap] in Hk.
  apply not_elem_of_cons in Hk as [Hne Hk].
  rewrite insert_all_cons, IH by exact Hk.
  destruct (insert_step_objects w decl) as [Ho|Ho]; rewrite Ho; [reflexivity|].
  apply lookup_insert_ne. congruence.
Qed.

(** No warning is given while every name still to come is either absent
    from the index or already an id of the document. *)
Lemma insert_all_quiet decls : forall w,
  Forall (fun n => objects w !! n = None \/ n ∈ document_ids w)
         (declared_names decls) ->
  reported (insert_all doc2path decls w) = reported w.
Proof.
  induction decls as [|[[[self name] sig] signode] decls IH]; intros w Hall;
    [reflexivity|].
  cbn [declared_names fmap list_fmap] in Hall.
  apply Forall_cons in Hall as [Hname Hall]. cbn in Hname.
  rewrite insert_all_cons. unfold insert_step.
  destruct (decide (name ∈ document_ids w)) as [Hin|Hin].
  - rewrite add_world_skip by assumption. apply IH. exact Hall.
  - destruct Hname as [Hnone|Hin']; [|contradiction].
    rewrite IH.
    + rewrite add_world_insert by assumption. cbn. rewrite Hnone. reflexivity.
    + rewrite add_world_insert by assumption. cbn.
      eapply Forall_impl; [exact Hall|]. cbn. intros n [Hn|Hn].
      * destruct (decide (n = name)) as [->|Hne]; [right; set_solver|].
        left. rewrite lookup_insert_ne by congruence. exact Hn.
      * right. set_solver.
Qed.
End PassFacts.

(** X13: indexing a document puts into the index only entries that the
    document owns: once they are cleared, nothing is left that was not
    there before. *)
Theorem insert_all_only_own_entries doc2path decls w :
  clear_doc (docname w) (objects (insert_all doc2path decls w)) ⊆ objects w.
Proof.
  apply map_subseteq_spec. intros k v Hk. rewrite clear_doc_lookup in Hk.
  destruct (objects (insert_all doc2path decls w) !! k) as [[fn t]|] eqn:Ho;
    [|discriminate Hk].
  case_decide as Hd; [discriminate Hk|]. injection Hk as <-.
  apply insert_all_lookup in Ho as [Ho|Ho]; [exact Ho|].
  cbn in Ho. contradiction.
Qed.

(** X14: when none of the names a document declares is in the index,
    indexing the document and clearing it again gives the index cleared of
    the document: the entries of all other documents come through. *)
Theorem insert_all_then_clear doc2path decls w :
  Forall (fun n => objects w !! n = None) (declared_names decls) ->
  clear_doc (docname w) (objects (insert_all doc2path decls w))
  = clear_doc (docname w) (objects w).
Proof.
  intros Hfresh. apply map_eq. intros k. rewrite !clear_doc_lookup.
  destruct (decide (k ∈ declared_names decls)) as [Hk|Hk].
  - rewrite Forall_forall in Hfresh. rewrite (Hfresh k Hk).
    destruct (objects (insert_all doc2path decls w) !! k) as [[fn t]|] eqn:Ho;
      [|reflexivity].
    apply insert_all_lookup in Ho as [Ho|Ho].
    + rewrite (Hfresh k Hk) in Ho. discriminate Ho.
    + cbn in Ho. rewrite decide_True by exact Ho. reflexivity.
  - rewrite insert_all_lookup_other by exact Hk. reflexivity.
Qed.

Lemma insert_all_then_clear_witness :
  clear_doc "d3"
    (objects (insert_all (fun doc => doc) third_document
                (open_document "d3" ∅ both_read)))
  = clear_doc "d3" (objects both_read).
Proof.
  apply (insert_all_then_clear (fun doc => doc) third_document
           (open_document "d3" ∅ both_read)).
  repeat constructor.
Defined.

(** X15: reading a document again gives no duplicate warning as long as
    no other document owns one of its names: [clear_doc] has removed the
    entries of the earlier reading, and a name repeated inside the
    document is passed over. *)
Theorem rebuild_is_quiet doc2path doc ids decls w :
  Forall (fun n => from_option (fun v => v.1 = doc) True (objects w !! n))
         (declared_names decls) ->
  reported (rebuild doc2path doc ids decls w) = reported w.
Proof.
  intros Hown. unfold rebuild. rewrite insert_all_quiet; [reflexivity|].
  eapply Forall_impl; [exact Hown|]. cbn. intros n Hn. left.
  rewrite clear_doc_lookup.
  destruct (objects w !! n) as [[fn t]|]; [|reflexivity].
  cbn in Hn. rewrite decide_True by exact Hn. reflexivity.
Qed.

Lemma rebuild_is_quiet_witness :
  reported (rebuild (fun doc => doc) "d1" ∅
              (first_document ++ first_document) first_and_third_read)
  = reported first_and_third_read.
Proof.
  apply (rebuild_is_quiet (fun doc => doc) "d1" ∅
           (first_document ++ first_document) first_and_third_read).
  repeat constructor.
Defined.

(** X16: [clear_doc] done twice is [clear_doc] done once, and two
    documents can be cleared in either order. *)
Theorem clear_doc_idempotent_commutes d1 d2 (inv : gmap string (string * objtype)) :
  clear_doc d1 (clear_doc d1 inv) = clear_doc d1 inv
  /\ clear_doc d1 (clear_doc d2 inv) = clear_doc d2 (clear_doc d1 inv).
Proof.
  split; apply map_eq; intros k; rewrite !clear_doc_lookup;
    destruct (inv !! k) as [[fn t]|]; try reflexivity;
    repeat (case_decide; try reflexivity; try congruence).
Qed.

(** X17: what was inserted can be looked up.  After [add_target_and_index]
    for a name that was not yet an id of the document, a reference to the
    name resolves, whatever its role, to a link into the document being
    read, with the name as target id and title. *)
Theorem resolve_xref_after_insert doc2path self name sig signode w
    fromdocname typ contnode :
  name ∉ document_ids w ->
  resolve_xref (objects (add_target_and_index doc2path self name sig signode w).2)
    fromdocname typ name contnode
  = Some {| ref_fromdocname := fromdocname; ref_todocname := docname w;
            ref_targetid := name; ref_child := contnode; ref_title := name |}.
Proof.
  intros Hw. rewrite add_world_insert by exact Hw.
  unfold resolve_xref. cbn [objects]. rewrite lookup_insert_eq. reflexivity.
Qed.

Lemma resolve_xref_after_insert_witness :
  resolve_xref
    (objects (add_target_and_index (fun doc => doc) (new_directive table)
                "orders" "orders" new_signode (new_world "d3")).2)
    "d1" "meth" "orders" (Text "the orders")
  = Some {| ref_fromdocname := "d1"; ref_todocname := "d3";
            ref_targetid := "orders"; ref_child := Text "the orders";
            ref_title := "orders" |}.
Proof.
  apply (resolve_xref_after_insert (fun doc => doc) (new_directive table)
           "orders" "orders" new_signode (new_world "d3") "d1" "meth"
           (Text "the orders")).
  apply (bool_decide_unpack _). vm_compute. exact I.
Defined.

Lemma length_append (s t : string) :
  String.length (s ++ t) = (String.length s + String.length t)%nat.
Proof.
  induction s as [|c s IH]; [reflexivity|].
  rewrite PyFacts.append_cons. cbn [String.length]. rewrite IH. reflexivity.
Qed.

(** X18: a member declared inside a package is found under its qualified
    name.  When a signature parses inside package [pkg] and the qualified
    name is not yet an id of the document, indexing the name that
    [handle_signature] returns makes a reference to [pkg.name] resolve to
    the document, while the bare name stays unresolved unless it was in
    the index before. *)
Theorem package_member_resolves doc2path self temp sig signode w pkg
    name_prefix name arglist retann fromdocname typ contnode :
  sig_groups sig = Some (name_prefix, Some name, arglist, retann) ->
  inside_package temp = true ->
  current_package temp = Some pkg ->
  pkg ++ "." ++ name ∉ document_ids w ->
  exists fullname signode',
    handle_signature self temp sig signode = Ok (fullname, signode')
    /\ let w' := (add_target_and_index doc2path self fullname sig signode' w).2 in
       resolve_xref (objects w') fromdocname typ (pkg ++ "." ++ name) contnode
       = Some (make_refnode fromdocname (docname w) (pkg ++ "." ++ name)
                 contnode (pkg ++ "." ++ name))
       /\ resolve_xref (objects w') fromdocname typ name contnode
          = resolve_xref (objects w) fromdocname typ name contnode.
Proof.
  intros Hm Hin Hcur Hids.
  do 2 eexists. split.
  - apply (handle_signature_ok _ _ _ _ _ _ _ _ Hm). rewrite Hcur. eauto.
  - unfold effective_prefix. rewrite Hin, Hcur. cbn [default from_option id].
    rewrite PyFacts.append_assoc. cbn zeta.
    rewrite add_world_insert by exact Hids.
    unfold resolve_xref. cbn [objects]. rewrite lookup_insert_eq.
    split; [reflexivity|].
    rewrite lookup_insert_ne; [reflexivity|].
    intros Heq. apply (f_equal String.length) in Heq.
    rewrite !length_append in Heq. cbn in Heq. lia.
Qed.

Lemma package_member_resolves_witness :
  exists fullname signode',
    handle_signature (new_directive procedure) in_pkg1
      "myproc(a in number, b out varchar2) return boolean" new_signode
    = Ok (fullname, signode')
    /\ let w' := (add_target_and_index (fun doc => doc) (new_directive procedure)
                    fullname "myproc(a in number, b out varchar2) return boolean"
                    signode' (new_world "d1")).2 in
       resolve_xref (objects w') "d2" "meth" ("pkg1" ++ "." ++ "myproc")
         (Text "pkg1.myproc")
       = Some (make_refnode "d2" "d1" ("pkg1" ++ "." ++ "myproc")
                 (Text "pkg1.myproc") ("pkg1" ++ "." ++ "myproc"))
       /\ resolve_xref (objects w') "d2" "meth" "myproc" (Text "pkg1.myproc")
          = resolve_xref (objects (new_world "d1")) "d2" "meth" "myproc"
              (Text "pkg1.myproc").
Proof.
  apply (package_member_resolves (fun doc => doc) (new_directive procedure)
           in_pkg1 "myproc(a in number, b out varchar2) return boolean"
           new_signode (new_world "d1") "pkg1" None "myproc"
           (Some "a in number, b out varchar2") (Some "boolean")
           "d2" "meth" (Text "pkg1.myproc")).
  - vm_compute. reflexivity.
  - reflexivity.
  - reflexivity.
  - apply (bool_decide_unpack _). vm_compute. exact I.
Defined.

(** X19: [get_objects] yields one tuple for each entry of the index and
    no other: the name three times over, as name, display name and anchor,
    with the kind, the document and the priority 1. *)
Theorem get_objects_entries (inv : gmap string (string * objtype))
    refname dispname kind doc anchor priority :
  ((refname, dispname, kind, doc, anchor, priority) ∈ get_objects inv
   <-> inv !! refname = Some (doc, kind)
       /\ dispname = refname /\ anchor = refname /\ priority = 1%nat)
  /\ length (get_objects inv) = size inv.
Proof.
  unfold get_objects. split.
  - rewrite list_elem_of_fmap. split.
    + intros ([k [d t]] & Heq & Hin). injection Heq as -> -> -> -> -> ->.
      apply elem_of_map_to_list in Hin. auto.
    + intros (Hin & -> & -> & ->). exists (refname, (doc, kind)).
      split; [reflexivity|]. apply elem_of_map_to_list. exact Hin.
  - rewrite length_fmap. apply length_map_to_list.
Qed.

(** ** Further properties of the typed field *)

Section TypedFieldFacts.
Variable make_xref :
  option string -> string -> string -> (string -> string -> node) -> node.

Lemma handle_item_types self domain (types : gmap string (list node))
    fieldarg content :
  (handle_item make_xref self domain types fieldarg content).2
  = delete fieldarg types.
Proof.
  unfold handle_item. destruct (types !! fieldarg) eqn:Hty; cbn [snd].
  - reflexivity.
  - symmetry. apply delete_id. exact Hty.
Qed.

Lemma render_type_app self domain fieldtype par :
  exists rendered,
    render_type make_xref self domain fieldtype par = (par ++ rendered)%list.
Proof.
  unfold render_type, par_add.
  destruct ((length fieldtype =? 1)%nat && forallb is_Text (firstn 1 fieldtype));
    [|eauto].
  destruct (length _ =? 1)%nat; rewrite <- ?app_assoc; eauto.
Qed.

Lemma handle_item_par self domain (types : gmap string (list node))
    fieldarg content :
  exists cs,
    (handle_item make_xref self domain types fieldarg content).1
    = paragraph (make_xref (rolename self) domain fieldarg strong :: cs).
Proof.
  unfold handle_item, par_add. destruct (types !! fieldarg) as [ft|]; cbn [fst].
  - match goal with
    | |- context [render_type _ _ _ ft ?par] =>
        destruct (render_type_app self domain ft par) as [rendered ->]
    end.
    eexists. rewrite <- !app_assoc. cbn [app]. reflexivity.
  - eexists. rewrite <- ?app_assoc. cbn [app]. reflexivity.
Qed.

Lemma fold_item_step self domain items :
  forall body (types : gmap string (list node)),
    exists pars,
      (fold_left (item_step make_xref self domain) items (body, types)).1
      = (body ++ pars)%list
      /\ Forall2 (fun n (item : string * list node) =>
                    exists cs,
                      n = list_item
                            [paragraph (make_xref (rolename self) domain item.1 strong
                                          :: cs)])
                 pars items
      /\ forall k,
           (fold_left (item_step make_xref self domain) items (body, types)).2 !! k
           = if decide (k ∈ items.*1) then None else types !! k.
Proof.
  induction items as [|[fieldarg content] items IH]; intros body types.
  - exists []. cbn. rewrite app_nil_r. split; [reflexivity|].
    split; [constructor|]. intros k. rewrite decide_False by set_solver.
    reflexivity.
  - cbn [fold_left]. unfold item_step at 2 4.
    pose proof (handle_item_types self domain types fieldarg content) as Hty.
    destruct (handle_item_par self domain types fieldarg content) as [cs Hpar].
    destruct (handle_item make_xref self domain types fieldarg content)
      as [par types1]. cbn [fst snd] in Hty, Hpar. subst par types1.
    destruct (IH (body ++ [list_item [paragraph
                (make_xref (rolename self) domain fieldarg strong :: cs)]])%list
                (delete fieldarg types)) as (pars & Hbody & Hall & Hlook).
    eexists (_ :: pars). split; [rewrite Hbody, <- app_assoc; reflexivity|].
    split; [constructor; [eauto|exact Hall]|].
    intros k. rewrite Hlook. cbn [fmap list_fmap fst].
    destruct (decide (k = fieldarg)) as [->|Hne].
    + rewrite lookup_delete_eq.
      rewrite (decide_True (P := fieldarg ∈ fieldarg :: items.*1))
        by (apply elem_of_cons; left; reflexivity).
      case_decide; reflexivity.
    + rewrite lookup_delete_ne by congruence.
      destruct (decide (k ∈ items.*1)).
      * rewrite decide_True by (apply elem_of_cons; right; assumption).
        reflexivity.
      * rewrite decide_False
          by (intros [Heq|Hin]%elem_of_cons; [congruence|contradiction]).
        reflexivity.
Qed.

End TypedFieldFacts.

(** X20: a field that does not collapse, as the parameter field of the
    module, is rendered as a bullet list with one item for each documented
    argument, in the order given, each item a paragraph that begins with
    the argument; the types of all these arguments are taken out of
    [types], the others stay. *)
Theorem make_field_list make_xref self (types : gmap string (list node))
    domain items :
  can_collapse self = false ->
  exists pars,
    (make_field make_xref self types domain items).1
    = field [field_name (label self); field_body [bullet_list pars]]
    /\ Forall2 (fun n (item : string * list node) =>
                  exists cs,
                    n = list_item
                          [paragraph (make_xref (rolename self) domain item.1 strong
                                        :: cs)])
               pars items
    /\ forall k,
         (make_field make_xref self types domain items).2 !! k
         = if decide (k ∈ items.*1) then None else types !! k.
Proof.
  intros Hc.
  destruct (fold_item_step make_xref self domain items [] types)
    as (pars & Hbody & Hall & Hlook).
  exists pars.
  assert (Hmf : make_field make_xref self types domain items
                = (field [field_name (label self);
                          field_body [bullet_list
                            (fold_left (item_step make_xref self domain) items
                               ([], types)).1]],
                   (fold_left (item_step make_xref self domain) items
                      ([], types)).2)).
  { unfold make_field. rewrite Hc.
    destruct (fold_left (item_step make_xref self domain) items ([], types))
      as [body types'].
    destruct items as [|[fieldarg content] [|item items]]; reflexivity. }
  rewrite Hmf. cbn [fst snd]. rewrite Hbody. cbn [app]. auto.
Qed.

Lemma make_field_list_witness :
  exists pars,
    (make_field sphinx_make_xref parameter_field in_out_types "plsql"
       [("p_item", [Text "the item"]); ("p_count", [Text "how many"])]).1
    = field [field_name "Parameters"; field_body [bullet_list pars]]
    /\ Forall2 (fun n (item : string * list node) =>
                  exists cs,
                    n = list_item
                          [paragraph (sphinx_make_xref None "plsql" item.1 strong
                                        :: cs)])
               pars
               [("p_item", [Text "the item"]); ("p_count", [Text "how many"])]
    /\ forall k,
         (make_field sphinx_make_xref parameter_field in_out_types "plsql"
            [("p_item", [Text "the item"]); ("p_count", [Text "how many"])]).2 !! k
         = if decide (k ∈ [("p_item", [Text "the item"]);
                            ("p_count", [Text "how many"])].*1)
           then None else in_out_types !! k.
Proof.
  apply (make_field_list sphinx_make_xref parameter_field in_out_types "plsql"
           [("p_item", [Text "the item"]); ("p_count", [Text "how many"])]).
  reflexivity.
Defined.

(** X21: a type is used once.  [handle_item] takes the type of the
    argument out of [types], so a second item for the same argument is
    rendered without any type: the argument, the dash and the content. *)
Theorem handle_item_type_used_once make_xref self domain
    (types : gmap string (list node)) fieldarg content1 content2 :
  let types1 := (handle_item make_xref self domain types fieldarg content1).2 in
  types1 !! fieldarg = None
  /\ handle_item make_xref self domain types1 fieldarg content2
     = (paragraph ([make_xref (rolename self) domain fieldarg strong;
                    Text " -- "] ++ content2)%list,
        types1).
Proof.
  cbn zeta. rewrite handle_item_types.
  split; [apply lookup_delete_eq|].
  unfold handle_item. rewrite lookup_delete_eq. reflexivity.
Qed.

Lemma split_snoc sep s :
  Py.split sep (s ++ String sep "") = (Py.split sep s ++ [""])%list.
Proof.
  induction s as [|c s IH].
  - rewrite PyFacts.append_nil_l. cbn [Py.split].
    rewrite Ascii.eqb_refl. reflexivity.
  - rewrite PyFacts.append_cons. cbn [Py.split]. rewrite IH.
    pose proof (PyFacts.split_not_nil sep s) as Hnil.
    destruct (Ascii.eqb c sep); [reflexivity|].
    destruct (Py.split sep s); [congruence|reflexivity].
Qed.

(** X22: a type that ends with a space.  The split leaves an empty last
    piece, so everything before the final space is put in as plain text
    and the cross-reference is made to the empty string. *)
Theorem handle_item_trailing_space make_xref self domain
    (types : gmap string (list node)) fieldarg content typename :
  types !! fieldarg = Some [Text (typename ++ " ")] ->
  (handle_item make_xref self domain types fieldarg content).1
  = paragraph
      ([make_xref (rolename self) domain fieldarg strong; Text " (";
        Text typename; Text " ";
        make_xref (typerolename self) domain "" default_innernode;
        Text ")"; Text " -- "] ++ content)%list.
Proof.
  intros Hty. unfold handle_item. rewrite Hty. unfold render_type, par_add.
  cbn [length Nat.eqb firstn forallb is_Text andb fmap list_fmap astext Py.join fst].
  rewrite split_snoc.
  pose proof (PyFacts.split_not_nil " " typename) as Hnil.
  pose proof (PyFacts.split_join " " typename) as Hjoin.
  assert (Hlen : (length (Py.split " " typename ++ [""]) =? 1)%nat = false).
  { rewrite length_app. cbn [length]. apply Nat.eqb_neq.
    destruct (Py.split " " typename); [congruence|cbn [length]; lia]. }
  rewrite Hlen. unfold Py.init, Py.final.
  rewrite removelast_last, last_last, Hjoin.
  rewrite <- !app_assoc. reflexivity.
Qed.

Lemma handle_item_trailing_space_witness :
  (handle_item sphinx_make_xref parameter_field "plsql"
     {[ "p_count" := [Text ("number" ++ " ")] ]} "p_count" [Text "how many"]).1
  = paragraph
      ([sphinx_make_xref None "plsql" "p_count" strong; Text " (";
        Text "number"; Text " ";
        sphinx_make_xref (Some "obj") "plsql" "" default_innernode;
        Text ")"; Text " -- "] ++ [Text "how many"])%list.
Proof.
  apply (handle_item_trailing_space sphinx_make_xref parameter_field "plsql"
           {[ "p_count" := [Text ("number" ++ " ")] ]} "p_count"
           [Text "how many"] "number").
  vm_compute. reflexivity.
Defined.

(** X23: the tables of the domain agree.  Each of the seven kinds has a
    directive and an object type under its own name; the object type is
    labelled with that name and carries two roles, one of its own, which
    is a key of [roles], and the role [obj], which is not. *)
Theorem domain_tables_agree (t : objtype) :
  exists cls role,
    directives !! objtype_name t = Some cls
    /\ object_types !! objtype_name t = Some (objtype_name t, [role; "obj"])
    /\ (role ∈ roles)
    /\ ("obj" ∉ roles)
    /\ size directives = 7%nat /\ size object_types = 7%nat.
Proof.
  assert (Hobj : "obj" ∉ roles) by (apply (bool_decide_unpack _); vm_compute; exact I).
  destruct t; do 2 eexists;
    (split; [vm_compute; reflexivity|]);
    (split; [vm_compute; reflexivity|]);
    (split; [apply (bool_decide_unpack _); vm_compute; exact I|]);
    (split; [exact Hobj|]); split; vm_compute; reflexivity.
Qed.

(** ** Further properties of [handle_signature] and of the passes *)

(** X24: the nodes of a parsed signature, in terms of the groups of the
    match.  [handle_signature] only appends to the signature node, and
    leaves its names and ids alone: the kind and a space; the prefix group,
    also when it is empty, unless inside a package; the name group; a
    parameter list when the argument group is not empty, with the
    parameters in order; a return node with the text of the return group
    when that group is not empty. *)
Theorem handle_signature_nodes self temp sig signode
    name_prefix name arglist retann fullname signode' :
  sig_groups sig = Some (name_prefix, name, arglist, retann) ->
  handle_signature self temp sig signode = Ok (fullname, signode') ->
  let kind := objtype_name (self_objtype self) ++ " " in
  let np := default "" name_prefix in
  sig_children signode'
  = (sig_children signode
     ++ [desc_annotation kind kind]
     ++ (if inside_package temp then [] else [desc_annotation np np])
     ++ [desc_name (default "" name) (default "" name)]
     ++ (if Py.truthy arglist
         then [desc_parameterlist
                 ((fun t => desc_parameter t t)
                    <$> (Py.strip
                           <$> List.filter (fun t => negb (blank t))
                                 (Py.split "," (default "" arglist))))]
         else [])
     ++ (if Py.truthy retann
         then [desc_returns (default "" retann) (default "" retann)]
         else []))%list
  /\ sig_names signode' = sig_names signode
  /\ sig_ids signode' = sig_ids signode
  /\ sig_first signode' = sig_first signode.
Proof.
  intros Hm Hh.
  pose proof (handle_signature_Ok_inv _ _ _ _ _ Hh) as Hpkg.
  destruct (sig_groups_name _ _ _ _ _ Hm) as (n & -> & _).
  rewrite (handle_signature_ok _ _ _ _ _ _ _ _ Hm Hpkg) in Hh.
  injection Hh as _ <-. cbn [sig_children sig_names sig_ids sig_first].
  repeat split. unfold signature_nodes, effective_prefix, parameters, parameter_nodes.
  destruct (inside_package temp); reflexivity.
Qed.

Lemma handle_signature_nodes_witness :
  sig_children
    (match handle_signature (new_directive function) no_temp
             "f( ) return number" new_signode with
     | Ok (_, signode') => signode'
     | Raise _ => new_signode
     end)
  = [desc_annotation "function " "function "; desc_annotation "" "";
     desc_name "f" "f"; desc_parameterlist [];
     desc_returns "number" "number"].
Proof.
  destruct (handle_signature_nodes (new_directive function) no_temp
              "f( ) return number" new_signode None (Some "f") (Some " ")
              (Some "number") "f"
              (match handle_signature (new_directive function) no_temp
                       "f( ) return number" new_signode with
               | Ok (_, signode') => signode'
               | Raise _ => new_signode
               end)) as (Hc & _).
  - vm_compute. reflexivity.
  - vm_compute. reflexivity.
  - exact Hc.
Defined.

(** X25: entering a package.  [before_content] of a package directive
    with names records the first of them, and every signature that parses
    after it is named by that name, a dot and its own name. *)
Theorem handle_signature_in_entered_package pkg self temp sig signode
    first_name other_names name_prefix name arglist retann :
  names pkg = first_name :: other_names ->
  sig_groups sig = Some (name_prefix, name, arglist, retann) ->
  exists signode',
    handle_signature self (before_content pkg temp) sig signode
    = Ok (first_name ++ "." ++ default "" name, signode').
Proof.
  intros Hnames Hm.
  destruct (sig_groups_name _ _ _ _ _ Hm) as (n & -> & _).
  eexists. rewrite (handle_signature_ok _ _ _ _ _ _ _ _ Hm).
  - unfold effective_prefix, before_content. rewrite Hnames.
    cbn [inside_package in_package current_package default from_option id].
    rewrite PyFacts.append_assoc. reflexivity.
  - intros _. unfold before_content. rewrite Hnames. cbn. eauto.
Qed.

Lemma handle_signature_in_entered_package_witness :
  exists signode',
    handle_signature (new_directive function)
      (before_content
         {| self_objtype := package; lineno := 1; names := ["pkg1"; "pkg1_alias"];
            indexnode_entries := [] |} no_temp)
      "other.total(x) return number" new_signode
    = Ok ("pkg1" ++ "." ++ default "" (Some "total"), signode').
Proof.
  apply (handle_signature_in_entered_package
           {| self_objtype := package; lineno := 1; names := ["pkg1"; "pkg1_alias"];
              indexnode_entries := [] |}
           (new_directive function) no_temp "other.total(x) return number"
           new_signode "pkg1" ["pkg1_alias"] (Some "other.") (Some "total")
           (Some "x") (Some "number")).
  - reflexivity.
  - vm_compute. reflexivity.
Defined.

(** X26: indexing a document is independent of what the index held: the
    index afterwards is what the document puts into an empty index, laid
    over the index before. *)
Theorem insert_all_over_index doc2path decls w :
  objects (insert_all doc2path decls w)
  = objects (insert_all doc2path decls (set_objects w ∅)) ∪ objects w.
Proof. apply insert_all_union; reflexivity. Qed.

Section FirstWins.
Variable doc2path : string -> string.

Lemma insert_all_ids decls : forall w k,
  k ∈ document_ids (insert_all doc2path decls w) ->
  k ∈ document_ids w \/ k ∈ declared_names decls.
Proof.
  induction decls as [|[[[self name] sig] signode] decls IH]; intros w k Hk;
    [left; exact Hk|].
  rewrite insert_all_cons in Hk. apply IH in Hk as [Hk|Hk].
  - unfold insert_step in Hk.
    destruct (decide (name ∈ document_ids w)) as [Hin|Hin].
    + rewrite add_world_skip in Hk by assumption. left. exact Hk.
    + rewrite add_world_insert in Hk by assumption. cbn in Hk.
      apply elem_of_union in Hk as [Hk|Hk]; [|left; exact Hk].
      apply elem_of_singleton in Hk as ->. right.
      apply elem_of_cons. left. reflexivity.
  - right. apply elem_of_cons. right. exact Hk.
Qed.

Lemma insert_all_known decls : forall w k,
  k ∈ document_ids w ->
  objects (insert_all doc2path decls w) !! k = objects w !! k.
Proof.
  induction decls as [|[[[self name] sig] signode] decls IH]; intros w k Hk;
    [reflexivity|].
  rewrite insert_all_cons. unfold insert_step.
  destruct (decide (name ∈ document_ids w)) as [Hin|Hin].
  - rewrite add_world_skip by assumption. apply IH. exact Hk.
  - rewrite IH.
    + rewrite add_world_insert by assumption. cbn.
      apply lookup_insert_ne. intros ->. contradiction.
    + rewrite add_world_insert by assumption. cbn.
      apply elem_of_union. right. exact Hk.
Qed.

Lemma insert_all_app decls1 decls2 w :
  insert_all doc2path (decls1 ++ decls2) w
  = insert_all doc2path decls2 (insert_all doc2path decls1 w).
Proof. apply fold_left_app. Qed.
End FirstWins.

(** X27: in one reading of a document the first declaration of a name
    wins.  If the name is not an id of the document beforehand and is not
    declared earlier in the document, the index ends up with the kind of
    that declaration under the name, whatever is declared after it. *)
Theorem insert_all_first_wins doc2path before self name sig signode after w :
  name ∉ document_ids w ->
  name ∉ declared_names before ->
  objects (insert_all doc2path (before ++ (self, name, sig, signode) :: after) w)
    !! name
  = Some (docname w, self_objtype self).
Proof.
  intros Hids Hbefore.
  rewrite insert_all_app, insert_all_cons.
  set (w1 := insert_all doc2path before w).
  assert (Hw1 : name ∉ document_ids w1).
  { intros Hin. apply insert_all_ids in Hin as [Hin|Hin]; contradiction. }
  unfold insert_step. rewrite insert_all_known.
  - rewrite add_world_insert by exact Hw1. cbn [objects].
    rewrite lookup_insert_eq. unfold w1. rewrite insert_all_docname. reflexivity.
  - rewrite add_world_insert by exact Hw1. cbn.
    apply elem_of_union. left. apply elem_of_singleton. reflexivity.
Qed.

Lemma insert_all_first_wins_witness :
  objects (insert_all (fun doc => doc)
             ([(new_directive package, "pkg1", "pkg1", new_signode)]
              ++ (new_directive procedure, "pkg1.run", "run", new_signode)
                 :: [(new_directive function, "pkg1.run", "run", new_signode)])
             (new_world "d1")) !! "pkg1.run"
  = Some ("d1", procedure).
Proof.
  apply (insert_all_first_wins (fun doc => doc)
           [(new_directive package, "pkg1", "pkg1", new_signode)]
           (new_directive procedure) "pkg1.run" "run" new_signode
           [(new_directive function, "pkg1.run", "run", new_signode)]
           (new_world "d1")).
  - apply (bool_decide_unpack _). vm_compute. exact I.
  - apply (bool_decide_unpack _). vm_compute. exact I.
Defined.

(** ** The argument group is greedy *)

Module SigGreedy.
Import Re ReSpec.












End SigGreedy.

(** ** The argument list of a signature *)



(** ** A package whose signature does not parse *)

(** C6 at the input where the code departs from it.  The signature of the
    package does not match, and [handle_signature] raises [ValueError] as
    the claim has it; the directive is left without names.  Its
    [before_content] all the same marks the package as entered, and the
    member inside it, whose signature is well formed and parses on its own,
    now makes [handle_signature] raise [KeyError], which is not the error
    of a malformed signature. *)
Theorem malformed_package_breaks_its_members :
  let pkg := new_directive package in
  let member := new_directive procedure in
  handle_signature pkg no_temp "my package" new_signode = Raise ValueError
  /\ names pkg = []
  /\ (exists signode',
        handle_signature member no_temp "init" new_signode = Ok ("init", signode'))
  /\ handle_signature member (before_content pkg no_temp) "init" new_signode
     = Raise (KeyError "plsql:current_package").
Proof.
  cbn zeta. split; [vm_compute; reflexivity|]. split; [reflexivity|].
  split; [eexists; vm_compute; reflexivity|]. vm_compute. reflexivity.
Qed.

(** ** The pattern beyond ASCII

    Letters above 127 are word characters and the no-break space is
    whitespace, for the pattern as for [isspace] and [strip]. *)
Lemma signatures_beyond_ascii :
  sig_groups ("caf" ++ e_acute)
  = Some (None, Some ("caf" ++ e_acute), None, None)
  /\ sig_groups ("freturnX" ++ e_acute)
     = Some (None, Some ("freturnX" ++ e_acute), None, None)
  /\ sig_groups ("f" ++ nbsp ++ "(a)") = Some (None, Some "f", Some "a", None)
  /\ parameters ("a," ++ nbsp) = ["a"]
  /\ Py.strip (nbsp ++ "in out" ++ nbsp) = "in out".
Proof. repeat split; vm_compute; reflexivity. Qed.
